(** * lizard-datasource: the augmented data source

    A shallow embedding of [lizard_datasource/augmented_datasource.py]
    together with the parts of its collaborators ([criteria.py],
    [datasource.py], [models.py]) that the embedded functions call.

    Python strings are [string]s whose characters are code points below
    256; dictionaries whose order is observable are association lists;
    Django tables are lists of records and [objects.filter] is [filter];
    exceptions are the left summand of [result]. *)

From Stdlib Require Import List Arith ZArith Lia Bool.
From Stdlib Require Import Ascii String.
From Stdlib Require Import Permutation Sorted.
From Stdlib Require Import OrderedTypeEx.
From Stdlib Require Import Decimal DecimalString DecimalNat.
From Equations Require Import Equations.
From Equations.Prop Require Import Logic.
Import ListNotations.

Local Open Scope string_scope.
Local Open Scope list_scope.

(** ** Exceptions *)

Inductive exn : Type :=
| ConfigurationError
| AttributeError
| MultipleObjectsReturned.

Definition result (A : Type) : Type := (exn + A)%type.

Definition ret {A : Type} (a : A) : result A := inr a.
Definition raise {A : Type} (e : exn) : result A := inl e.

Definition bind {A B : Type} (m : result A) (k : A -> result B) : result B :=
  match m with
  | inl e => inl e
  | inr a => k a
  end.

Notation "x <- m ;; k" := (bind m (fun x => k))
  (at level 61, m at next level, right associativity).

(** ** JSON text *)

Module Json.

Definition dquote : ascii := "034"%char.
Definition backslash : ascii := "092"%char.

Definition hex_digit (n : N) : ascii :=
  match String.get (N.to_nat n) "0123456789abcdef" with
  | Some c => c
  | None => "0"%char
  end.

(** One character of a JSON string literal, as [json.dumps] writes it
    with its default [ensure_ascii]: the two-character escapes, then
    [\u00XX] for everything outside the printable ASCII range. *)
Definition escape_char (c : ascii) : string :=
  let n := N_of_ascii c in
  if (n =? 34)%N then String backslash (String dquote EmptyString)
  else if (n =? 92)%N then String backslash (String backslash EmptyString)
  else if (n =? 10)%N then String backslash "n"
  else if (n =? 13)%N then String backslash "r"
  else if (n =? 9)%N then String backslash "t"
  else if (n =? 12)%N then String backslash "f"
  else if (n =? 8)%N then String backslash "b"
  else if ((n <? 32) || (126 <? n))%N then
    String backslash
      ("u00" ++ String (hex_digit (n / 16)) (String (hex_digit (n mod 16)) EmptyString))
  else String c EmptyString.

Fixpoint escape (s : string) : string :=
  match s with
  | EmptyString => EmptyString
  | String c s' => escape_char c ++ escape s'
  end.

Definition json_string (s : string) : string :=
  String dquote (escape s ++ String dquote EmptyString).

Definition json_item (kv : string * string) : string :=
  json_string (fst kv) ++ ": " ++ json_string (snd kv).

(** [json.dumps(d)] of a dictionary of strings whose items are listed
    in the order [items], with the default separators. *)
Definition json_object (items : list (string * string)) : string :=
  "{" ++ String.concat ", " (map json_item items) ++ "}".

(** *** Reading one escaped character back *)

Definition unhex (c : ascii) : option N :=
  let n := N_of_ascii c in
  if ((48 <=? n) && (n <=? 57))%N then Some (n - 48)%N
  else if ((97 <=? n) && (n <=? 102))%N then Some (n - 87)%N
  else None.

Definition unescape_head (s : string) : option (ascii * string) :=
  match s with
  | EmptyString => None
  | String c r =>
      if (N_of_ascii c =? 34)%N then None
      else if (N_of_ascii c =? 92)%N then
        match r with
        | String d r' =>
            if (N_of_ascii d =? 34)%N then Some (dquote, r')
            else if (N_of_ascii d =? 92)%N then Some (backslash, r')
            else if (N_of_ascii d =? 110)%N then Some ("010"%char, r')
            else if (N_of_ascii d =? 114)%N then Some ("013"%char, r')
            else if (N_of_ascii d =? 116)%N then Some ("009"%char, r')
            else if (N_of_ascii d =? 102)%N then Some ("012"%char, r')
            else if (N_of_ascii d =? 98)%N then Some ("008"%char, r')
            else if (N_of_ascii d =? 117)%N then
              match r' with
              | String _ (String _ (String h (String l r''))) =>
                  match unhex h, unhex l with
                  | Some a, Some b => Some (ascii_of_N (16 * a + b), r'')
                  | _, _ => None
                  end
              | _ => None
              end
            else None
        | EmptyString => None
        end
      else Some (c, r)
  end.

Definition first_char (s : string) : option ascii :=
  match s with
  | String c _ => Some c
  | EmptyString => None
  end.

End Json.

(** ** Dictionaries with string keys

    A Python [dict] whose iteration order can be observed: the pairs in
    insertion order, one per key.  Assigning to a key that is present
    keeps its place and replaces its value. *)

Module Dict.

Definition t (V : Type) : Type := list (string * V).

Fixpoint get {V : Type} (d : t V) (key : string) : option V :=
  match d with
  | [] => None
  | (k, v) :: d' => if String.eqb k key then Some v else get d' key
  end.

Fixpoint set {V : Type} (d : t V) (key : string) (value : V) : t V :=
  match d with
  | [] => [(key, value)]
  | (k, v) :: d' =>
      if String.eqb k key then (k, value) :: d'
      else (k, v) :: set d' key value
  end.

(** [dict(pairs)]: the pairs assigned one after the other. *)
Definition of_pairs {V : Type} (pairs : list (string * V)) : t V :=
  fold_left (fun d kv => set d (fst kv) (snd kv)) pairs [].

Definition keys {V : Type} (d : t V) : list string := map fst d.

End Dict.

(** ** Criteria space *)

Module criteria.

(** Modelled from the spec: [criteria.py] is not part of the sources.
    A criterion and an option are value objects made of an identifier
    and a description, equal when their identifiers are. *)
Record Criterion : Type := {
  criterion_identifier : string;
  criterion_description : string
}.

Record Option : Type := {
  option_identifier : string;
  option_description : string
}.

Definition option_eqb (o1 o2 : Option) : bool :=
  String.eqb (option_identifier o1) (option_identifier o2).

(** Modelled from the spec: an option list is an ordered sequence of
    options; it can be iterated, measured and reduced by one option. *)
Definition OptionList : Type := list Option.

Definition iter_options (options : OptionList) : list Option := options.

Definition len (options : OptionList) : nat := List.length options.

Definition contains (options : OptionList) (option : Option) : bool :=
  existsb (option_eqb option) options.

(** Modelled from the spec: [minus(option)] returns a new list without
    the given option and leaves the receiver alone; asking for an
    option that the list does not hold is a configuration error. *)
Definition minus (options : OptionList) (option : Option) : result OptionList :=
  if contains options option
  then ret (filter (fun o => negb (option_eqb option o)) options)
  else raise ConfigurationError.

End criteria.

Import criteria.

(** ** Selection state *)

Module ChoicesMade.

(** Modelled from the spec: [datasource.py], which defines
    [ChoicesMade], is not part of the sources.  The selection state is
    an immutable mapping from criterion identifier to option
    identifier, iterated in insertion order. *)
Definition t : Type := Dict.t string.

Definition empty : t := [].

(** Modelled from the spec: [add(key, value)] returns a new selection
    with the existing pairs plus the new one. *)
Definition add (cm : t) (key value : string) : t := Dict.set cm key value.

(** Modelled from the spec: sugar for [add] on the two identifiers. *)
Definition add_criterion_option (cm : t) (criterion : Criterion) (option : Option) : t :=
  add cm (criterion_identifier criterion) (option_identifier option).

Definition key_leb (x y : string * string) : bool :=
  String.leb (fst x) (fst y).

Definition key_le (x y : string * string) : Prop := key_leb x y = true.

Fixpoint insert_sorted (x : string * string) (l : list (string * string))
  : list (string * string) :=
  match l with
  | [] => [x]
  | y :: l' => if key_leb x y then x :: y :: l' else y :: insert_sorted x l'
  end.

Definition sorted_items (cm : t) : list (string * string) :=
  fold_right insert_sorted [] cm.

(** Modelled from the spec: the canonical serialization is the JSON
    object of the mapping with its keys in sorted order. *)
Definition json (cm : t) : string :=
  Json.json_object (sorted_items cm).

(** A string between double quotes, with nothing to escape in it. *)
Definition quoted (s : string) : string :=
  String Json.dquote (s ++ String Json.dquote EmptyString).

(** The text that [test_json_sorts_keys] expects:
    [{"a": "b", "test": "value"}]. *)
Definition test_json_sorts_keys_expected : string :=
  "{" ++ quoted "a" ++ ": " ++ quoted "b" ++ ", "
      ++ quoted "test" ++ ": " ++ quoted "value" ++ "}".

End ChoicesMade.

(** ** The augmented data source *)

Section Augmented.

(** What the collaborators hand through untouched: cached latest
    values, latitudes and longitudes, date bounds, time-series result
    objects, projected coordinates and the distances between them. *)
Context {value angle datetime Timeseries coord dist : Type}.

(** *** Configuration records ([models.py], seen through their use) *)

Record DatasourceLayer : Type := {
  layer_id : nat;
  choices_made : string
}.

Definition layer_eqb (l1 l2 : DatasourceLayer) : bool :=
  Nat.eqb (layer_id l1) (layer_id l2).

Record ColorMap : Type := {
  color_for : value -> string
}.

Record ColorFromLatestValue : Type := {
  cf_augmented_source : nat;
  cf_hide_from_layer : bool;
  layer_to_get_color_from : option DatasourceLayer;
  layer_to_add_color_to : DatasourceLayer;
  colormap : ColorMap
}.

Record PercentileLayer : Type := {
  pl_augmented_source : nat;
  pl_hide_from_layer : bool;
  layer_to_get_percentile_from : DatasourceLayer
}.

Record DatasourceCache : Type := {
  dc_datasource_layer : DatasourceLayer;
  locationid : string;
  dc_value : value
}.

(** The stored lines of an identifier mapping: for an identifier of the
    layer a line is added to, the identifier to read in the other
    layer, or nothing. *)
Definition IdentifierMapping : Type := Dict.t (option string).

Record ExtraGraphLine : Type := {
  egl_augmented_source : nat;
  layer_to_add_line_to : DatasourceLayer;
  layer_to_get_line_from : DatasourceLayer;
  identifier_mapping : option IdentifierMapping;
  max_distance_for_mapping : option dist
}.

Record Database : Type := {
  ColorFromLatestValue_objects : list ColorFromLatestValue;
  PercentileLayer_objects : list PercentileLayer;
  DatasourceCache_objects : list DatasourceCache;
  ExtraGraphLine_objects : list ExtraGraphLine
}.

(** *** Data sources *)

Record Location : Type := {
  identifier : string;
  latitude : angle;
  longitude : angle;
  color : option string
}.

Record Chooseable : Type := {
  criterion : Criterion;
  options : OptionList
}.

(** The operations of a wrapped source that the augmented source
    calls. *)
Record DataSource : Type := {
  ds_chooseable_criteria : list Chooseable;
  ds_locations : bool -> list Location;
  ds_timeseries : string -> option datetime -> option datetime -> Timeseries
}.

Record AugmentedDataSource : Type := {
  config_object : nat;
  original_datasource : DataSource;
  _choices_made : option ChoicesMade.t;
  datasource_layer : DatasourceLayer
}.

Definition chooseable_criteria (self : AugmentedDataSource) : list Chooseable :=
  ds_chooseable_criteria (original_datasource self).

(** *** [visible_criteria] *)

(** The attribute [choices_made] of each layer in [layers]; a missing
    layer has no attributes. *)
Fixpoint choices_made_of (layers : list (option DatasourceLayer)) : result (list string) :=
  match layers with
  | [] => ret []
  | None :: _ => raise AttributeError
  | Some layer :: layers' =>
      rest <- choices_made_of layers' ;;
      ret (choices_made layer :: rest)
  end.

Definition forbidden_choices_json (db : Database) (self : AugmentedDataSource)
  : result (list string) :=
  let colorfroms :=
    filter (fun c => Nat.eqb (cf_augmented_source c) (config_object self)
                     && cf_hide_from_layer c)
           (ColorFromLatestValue_objects db) in
  let percentiles :=
    filter (fun p => Nat.eqb (pl_augmented_source p) (config_object self)
                     && pl_hide_from_layer p)
           (PercentileLayer_objects db) in
  from_colors <- choices_made_of (map layer_to_get_color_from colorfroms) ;;
  ret (from_colors
       ++ map (fun p => choices_made (layer_to_get_percentile_from p)) percentiles).

Definition in_strings (s : string) (l : list string) : bool :=
  existsb (String.eqb s) l.

Definition is_forbidden (forbidden_choices_json : list string)
  (my_choices : ChoicesMade.t) (criterion : Criterion) (option : Option) : bool :=
  in_strings
    (ChoicesMade.json (ChoicesMade.add_criterion_option my_choices criterion option))
    forbidden_choices_json.

(** The inner [for ... else]: the option at which the loop breaks, or
    nothing when it runs to its end. *)
Definition first_forbidden (forbidden_choices_json : list string)
  (my_choices : ChoicesMade.t) (criterion : Criterion) (options : OptionList)
  : option Option :=
  find (is_forbidden forbidden_choices_json my_choices criterion)
       (iter_options options).

(** The two lists the loop appends to. *)
Record Lists : Type := {
  clean_criteria : list Chooseable;
  retry_criteria : list Chooseable
}.

(** The body of the outer [for], for one [chooseable]. *)
Definition examine (forbidden_choices_json : list string) (my_choices : ChoicesMade.t)
  (lists : Lists) (chooseable : Chooseable) : result Lists :=
  match first_forbidden forbidden_choices_json my_choices
          (criterion chooseable) (options chooseable) with
  | Some option =>
      if (1 <? len (options chooseable))%nat then
        remaining <- minus (options chooseable) option ;;
        ret {| clean_criteria := clean_criteria lists;
               retry_criteria :=
                 retry_criteria lists
                 ++ [{| criterion := criterion chooseable; options := remaining |}] |}
      else ret lists
  | None =>
      ret {| clean_criteria := clean_criteria lists ++ [chooseable];
             retry_criteria := retry_criteria lists |}
  end.

Fixpoint for_each {S A : Type} (body : S -> A -> result S) (l : list A) (s : S)
  : result S :=
  match l with
  | [] => ret s
  | a :: l' => s' <- body s a ;; for_each body l' s'
  end.

(** One run of the body of [while criteria]: from the work list and the
    clean criteria so far, the clean criteria and the retry list. *)
Definition one_pass (forbidden_choices_json : list string) (my_choices : ChoicesMade.t)
  (criteria : list Chooseable) (clean : list Chooseable) : result Lists :=
  for_each (examine forbidden_choices_json my_choices) criteria
           {| clean_criteria := clean; retry_criteria := [] |}.

(** The size of a work list: its pairs and their options. *)
Definition work (criteria : list Chooseable) : nat :=
  list_sum (map (fun c => S (len (options c))) criteria).

(** Each pair that is queued again has lost at least one option. *)
Lemma minus_shorter (options remaining : OptionList) (option : Option) :
  minus options option = inr remaining -> len remaining < len options.
Proof.
  unfold minus, len. destruct (contains options option) eqn:Hc; [|discriminate].
  intros H. injection H as <-.
  induction options as [|o os IH]; simpl in *; [discriminate|].
  destruct (option_eqb option o); simpl.
  - pose proof (filter_length_le (fun o0 => negb (option_eqb option o0)) os). lia.
  - apply IH in Hc. lia.
Qed.

Lemma examine_work (forbidden : list string) (my_choices : ChoicesMade.t)
  (lists lists' : Lists) (chooseable : Chooseable) :
  examine forbidden my_choices lists chooseable = inr lists' ->
  work (retry_criteria lists') < work (retry_criteria lists) + work [chooseable].
Proof.
  unfold examine, work.
  destruct (first_forbidden _ _ _ _) as [o|].
  - destruct (1 <? len (options chooseable))%nat.
    + destruct (minus (options chooseable) o) as [e|remaining] eqn:Hm; simpl; [discriminate|].
      intros H. injection H as <-. simpl.
      apply minus_shorter in Hm.
      rewrite map_app, list_sum_app. simpl. lia.
    + intros H. injection H as <-. simpl. lia.
  - intros H. injection H as <-. simpl. lia.
Qed.

Lemma for_each_examine_work (forbidden : list string) (my_choices : ChoicesMade.t)
  (criteria : list Chooseable) (lists lists' : Lists) :
  for_each (examine forbidden my_choices) criteria lists = inr lists' ->
  work (retry_criteria lists') + List.length criteria
  <= work (retry_criteria lists) + work criteria.
Proof.
  revert lists. induction criteria as [|c cs IH]; intros lists; simpl.
  - intros H. injection H as <-. lia.
  - destruct (examine forbidden my_choices lists c) as [e|mid] eqn:He; simpl; [discriminate|].
    intros H. apply IH in H. apply examine_work in He.
    unfold work in *. simpl in *. lia.
Qed.

(** The [while criteria] loop. *)
Equations? while_criteria (forbidden_choices_json : list string)
  (my_choices : ChoicesMade.t) (criteria clean : list Chooseable)
  : result (list Chooseable) by wf (work criteria) lt :=
while_criteria forbidden_choices_json my_choices [] clean := ret clean;
while_criteria forbidden_choices_json my_choices (c :: cs) clean
  with inspect (one_pass forbidden_choices_json my_choices (c :: cs) clean) := {
  | exist _ (inl e) _ := raise e
  | exist _ (inr lists) _ :=
      while_criteria forbidden_choices_json my_choices
        (retry_criteria lists) (clean_criteria lists) }.
Proof.
  apply for_each_examine_work in e. simpl in e. unfold work in *. simpl in *. lia.
Qed.

Definition visible_criteria (db : Database) (self : AugmentedDataSource)
  : result (list Chooseable) :=
  let criteria := chooseable_criteria self in
  forbidden <- forbidden_choices_json db self ;;
  match _choices_made self with
  | None => raise AttributeError
  | Some my_choices => while_criteria forbidden my_choices criteria []
  end.

(** *** [locations] *)

(** [objects.get(layer_to_add_color_to=self.datasource_layer)], with
    [DoesNotExist] caught and turned into [None]. *)
Definition _colorfrom (db : Database) (self : AugmentedDataSource)
  : result (option ColorFromLatestValue) :=
  match filter (fun c => layer_eqb (layer_to_add_color_to c) (datasource_layer self))
               (ColorFromLatestValue_objects db) with
  | [] => ret None
  | [colorfrom] => ret (Some colorfrom)
  | _ => raise MultipleObjectsReturned
  end.

Definition cached_values_for (db : Database) (colorfrom : ColorFromLatestValue)
  : Dict.t value :=
  match layer_to_get_color_from colorfrom with
  | Some layer =>
      Dict.of_pairs
        (map (fun cached_value => (locationid cached_value, dc_value cached_value))
             (filter (fun cached_value => layer_eqb (dc_datasource_layer cached_value) layer)
                     (DatasourceCache_objects db)))
  | None => []
  end.

(** [color[1:]] when [color.startswith("#")]. *)
Definition strip_hash (color : string) : string :=
  match color with
  | String c rest => if Ascii.eqb c "#" then rest else color
  | EmptyString => color
  end.

Definition gray : string := "888888".

(** The body of the last [for] of [locations]. *)
Definition colored (cached_values : Dict.t value) (colormap : ColorMap)
  (location : Location) : Location :=
  let color :=
    match Dict.get cached_values (identifier location) with
    | Some value => strip_hash (color_for colormap value)
    | None => gray
    end in
  {| identifier := identifier location;
     latitude := latitude location;
     longitude := longitude location;
     color := Some color |}.

Definition locations (db : Database) (self : AugmentedDataSource) (bare : bool)
  : result (list Location) :=
  let locations := ds_locations (original_datasource self) bare in
  if bare then ret locations
  else
    colorfrom <- _colorfrom db self ;;
    match colorfrom with
    | None => ret locations
    | Some colorfrom =>
        let cached_values := cached_values_for db colorfrom in
        ret (map (colored cached_values (colormap colorfrom)) locations)
    end.

(** *** [timeseries] *)

(** [datasource.get_datasource_by_layer] and the method
    [ExtraGraphLine.map_identifier] are not part of the sources, nor is
    the time-series class with its [add] and its truth value. *)
Variable get_datasource_by_layer : DatasourceLayer -> DataSource.
Variable map_identifier : ExtraGraphLine -> string -> option string.
Variable ts_add : Timeseries -> Timeseries -> Timeseries.
Variable ts_bool : Timeseries -> bool.

(** The truth value of an identifier that may be [None]. *)
Definition identifier_bool (i : option string) : bool :=
  match i with
  | Some (String _ _) => true
  | _ => false
  end.

(** The body of the [for] of [timeseries], for one extra graph line. *)
Definition add_extra_line (location_id : string)
  (start_datetime end_datetime : option datetime)
  (timeseries : Timeseries) (extra_graph_line : ExtraGraphLine) : Timeseries :=
  match map_identifier extra_graph_line location_id with
  | Some extra_identifier =>
      if identifier_bool (Some extra_identifier) then
        let layer_from := layer_to_get_line_from extra_graph_line in
        let source := get_datasource_by_layer layer_from in
        let extra_timeseries :=
          ds_timeseries source extra_identifier start_datetime end_datetime in
        if ts_bool extra_timeseries then ts_add timeseries extra_timeseries
        else timeseries
      else timeseries
  | None => timeseries
  end.

Definition lines_added_to (db : Database) (self : AugmentedDataSource)
  : list ExtraGraphLine :=
  filter (fun l => layer_eqb (layer_to_add_line_to l) (datasource_layer self))
         (ExtraGraphLine_objects db).

Definition timeseries (db : Database) (self : AugmentedDataSource)
  (location_id : string) (start_datetime end_datetime : option datetime)
  : Timeseries :=
  let timeseries :=
    ds_timeseries (original_datasource self) location_id start_datetime end_datetime in
  fold_left (add_extra_line location_id start_datetime end_datetime)
            (lines_added_to db self) timeseries.

(** The series that one extra graph line contributes to the result:
    the series of its source layer for the mapped identifier when
    there is one and the series is not empty, and else none. *)
Definition extra_series (location_id : string)
  (start_datetime end_datetime : option datetime)
  (extra_graph_line : ExtraGraphLine) : list Timeseries :=
  match map_identifier extra_graph_line location_id with
  | Some (String c rest) =>
      let extra_timeseries :=
        ds_timeseries
          (get_datasource_by_layer (layer_to_get_line_from extra_graph_line))
          (String c rest) start_datetime end_datetime in
      if ts_bool extra_timeseries then [extra_timeseries] else []
  | _ => []
  end.

(** *** [fill_mapping_with_closest_locations] *)

(** [coordinates.wgs84_to_rd] belongs to another package; distances
    between projected points are compared, never computed here. *)
Variable wgs84_to_rd : angle -> angle -> coord.
Variable distance : coord -> coord -> dist.
Variable dist_leb : dist -> dist -> bool.




(** What a built mapping answers for an identifier. *)
Definition resolve (mapping : IdentifierMapping) (i : string) : option string :=
  match Dict.get mapping i with
  | Some (Some j) => Some j
  | _ => None
  end.

Definition location_dict (locations : list Location) : Dict.t coord :=
  Dict.of_pairs
    (map (fun l => (identifier l, wgs84_to_rd (latitude l) (longitude l))) locations).



(** *** What the filter keeps, pair by pair

    The definitions below describe the outcome of [visible_criteria]
    one pair at a time; the theorems relate them to the loop. *)

(** A pair none of whose options is forbidden goes to the clean
    criteria as it is. *)
Definition accepts (forbidden : list string) (my_choices : ChoicesMade.t)
  (chooseable : Chooseable) : bool :=
  match first_forbidden forbidden my_choices
          (criterion chooseable) (options chooseable) with
  | None => true
  | Some _ => false
  end.

(** The pair that is queued again, if any. *)
Definition requeue (forbidden : list string) (my_choices : ChoicesMade.t)
  (chooseable : Chooseable) : list Chooseable :=
  match first_forbidden forbidden my_choices
          (criterion chooseable) (options chooseable) with
  | Some option =>
      if (1 <? len (options chooseable))%nat then
        [{| criterion := criterion chooseable;
            options := filter (fun o => negb (option_eqb option o)) (options chooseable) |}]
      else []
  | None => []
  end.

(** The pair as it reaches the clean criteria after exactly [k]
    removals, if it does. *)
Fixpoint after_removals (forbidden : list string) (my_choices : ChoicesMade.t)
  (k : nat) (chooseable : Chooseable) : list Chooseable :=
  match k with
  | 0 => if accepts forbidden my_choices chooseable then [chooseable] else []
  | S k' =>
      flat_map (after_removals forbidden my_choices k')
               (requeue forbidden my_choices chooseable)
  end.

(** The options of a pair that are not forbidden, and the pair reduced
    to them. *)
Definition visible_options (forbidden : list string) (my_choices : ChoicesMade.t)
  (chooseable : Chooseable) : OptionList :=
  filter (fun o => negb (is_forbidden forbidden my_choices (criterion chooseable) o))
         (options chooseable).

Definition filtered (forbidden : list string) (my_choices : ChoicesMade.t)
  (chooseable : Chooseable) : Chooseable :=
  {| criterion := criterion chooseable;
     options := visible_options forbidden my_choices chooseable |}.

(** The number of forbidden options of a pair. *)
Definition removals (forbidden : list string) (my_choices : ChoicesMade.t)
  (chooseable : Chooseable) : nat :=
  List.length
    (filter (is_forbidden forbidden my_choices (criterion chooseable))
            (options chooseable)).

(** A pair is shown when it had no option to begin with or when some
    option of it is not forbidden. *)
Definition shown (forbidden : list string) (my_choices : ChoicesMade.t)
  (chooseable : Chooseable) : bool :=
  (len (options chooseable) =? 0)%nat
  || (removals forbidden my_choices chooseable <? len (options chooseable))%nat.

(** The invariant of an option list: no two options share an
    identifier. *)
Definition distinct_options (chooseable : Chooseable) : Prop :=
  NoDup (map option_identifier (options chooseable)).

(** The pairs accepted in pass [k], in the order of [criteria]. *)
Definition pass_group (forbidden : list string) (my_choices : ChoicesMade.t)
  (criteria : list Chooseable) (k : nat) : list Chooseable :=
  map (filtered forbidden my_choices)
      (filter (fun c => (removals forbidden my_choices c =? k)%nat
                        && shown forbidden my_choices c)
              criteria).

(** The clean criteria after [n] passes: pass by pass, and within a
    pass in the order of [criteria]. *)
Definition grouped (forbidden : list string) (my_choices : ChoicesMade.t)
  (n : nat) (criteria : list Chooseable) : list Chooseable :=
  flat_map (fun k => flat_map (after_removals forbidden my_choices k) criteria)
           (seq 0 n).

Definition longest (criteria : list Chooseable) : nat :=
  list_max (map (fun c => len (options c)) criteria).

(** The work list after [n] passes. *)
Fixpoint worklist_after (forbidden : list string) (my_choices : ChoicesMade.t)
  (n : nat) (criteria : list Chooseable) : result (list Chooseable) :=
  match n with
  | 0 => ret criteria
  | S n' =>
      lists <- one_pass forbidden my_choices criteria [] ;;
      worklist_after forbidden my_choices n' (retry_criteria lists)
  end.

(** *** What the other properties speak of *)


(** The cache rows that [locations] reads for a layer, in the order of
    the query. *)
Definition cache_rows (db : Database) (layer : DatasourceLayer)
  : list DatasourceCache :=
  filter (fun cached_value => layer_eqb (dc_datasource_layer cached_value) layer)
         (DatasourceCache_objects db).

(** The colour specifications that colour the layer of [self]. *)
Definition colorfroms_of (db : Database) (self : AugmentedDataSource)
  : list ColorFromLatestValue :=
  filter (fun c => layer_eqb (layer_to_add_color_to c) (datasource_layer self))
         (ColorFromLatestValue_objects db).

(** A colour or a percentile specification hides its source layer from
    [self] when it belongs to the configuration of [self] and has
    [hide_from_layer] set. *)
Definition cf_hides (self : AugmentedDataSource) (c : ColorFromLatestValue) : bool :=
  Nat.eqb (cf_augmented_source c) (config_object self) && cf_hide_from_layer c.

Definition pl_hides (self : AugmentedDataSource) (p : PercentileLayer) : bool :=
  Nat.eqb (pl_augmented_source p) (config_object self) && pl_hide_from_layer p.

(** * Properties *)

(** ** JSON text can be read back *)

Lemma append_assoc (s1 s2 s3 : string) : ((s1 ++ s2) ++ s3 = s1 ++ (s2 ++ s3))%string.
Proof. induction s1 as [|c s1 IH]; simpl; [reflexivity | now rewrite IH]. Qed.

Lemma append_inv_head (s a b : string) : (s ++ a = s ++ b)%string -> a = b.
Proof. induction s as [|c s IH]; simpl; intros H; [assumption | injection H as H; auto]. Qed.

Lemma unescape_head_escape_char (c : ascii) (r : string) :
  Json.unescape_head (Json.escape_char c ++ r)%string = Some (c, r).
Proof.
  destruct c as [b0 b1 b2 b3 b4 b5 b6 b7].
  destruct b0, b1, b2, b3, b4, b5, b6, b7; reflexivity.
Qed.

Lemma escape_inj (s1 s2 r1 r2 : string) :
  (Json.escape s1 ++ String Json.dquote r1 = Json.escape s2 ++ String Json.dquote r2)%string ->
  s1 = s2 /\ r1 = r2.
Proof.
  revert s2. induction s1 as [|c1 s1 IH]; intros [|c2 s2]; simpl; intros H.
  - injection H as ->. auto.
  - apply (f_equal Json.unescape_head) in H.
    rewrite append_assoc, unescape_head_escape_char in H. discriminate.
  - apply (f_equal Json.unescape_head) in H.
    rewrite append_assoc, unescape_head_escape_char in H. discriminate.
  - apply (f_equal Json.unescape_head) in H.
    rewrite !append_assoc, !unescape_head_escape_char in H.
    injection H as -> H. apply IH in H as [-> ->]. auto.
Qed.

Lemma json_string_inj (s1 s2 r1 r2 : string) :
  (Json.json_string s1 ++ r1 = Json.json_string s2 ++ r2)%string -> s1 = s2 /\ r1 = r2.
Proof.
  unfold Json.json_string. simpl. rewrite !append_assoc. simpl.
  intros H. injection H as H. now apply escape_inj in H.
Qed.

Lemma json_item_inj (x1 x2 : string * string) (r1 r2 : string) :
  (Json.json_item x1 ++ r1 = Json.json_item x2 ++ r2)%string -> x1 = x2 /\ r1 = r2.
Proof.
  destruct x1 as [k1 v1], x2 as [k2 v2]. unfold Json.json_item. simpl fst; simpl snd.
  rewrite !append_assoc. intros H.
  apply json_string_inj in H as [-> H]. cbn [append] in H. injection H as H.
  rewrite !append_assoc in H. cbn [append] in H.
  apply escape_inj in H as [-> ->]. auto.
Qed.

Lemma concat_items_inj (l1 l2 : list (string * string)) (r1 r2 : string) :
  (String.concat ", " (map Json.json_item l1) ++ String "}" r1
   = String.concat ", " (map Json.json_item l2) ++ String "}" r2)%string ->
  l1 = l2 /\ r1 = r2.
Proof.
  revert l2. induction l1 as [|x1 l1 IH]; intros [|x2 l2] H.
  - simpl in H. injection H as ->. auto.
  - apply (f_equal Json.first_char) in H. destruct l2; simpl in H; discriminate.
  - apply (f_equal Json.first_char) in H. destruct l1; simpl in H; discriminate.
  - assert (Hcons : forall x y l,
               String.concat ", " (map Json.json_item (x :: y :: l))
               = (Json.json_item x ++ ", "
                  ++ String.concat ", " (map Json.json_item (y :: l)))%string)
      by reflexivity.
    destruct l1 as [|y1 l1], l2 as [|y2 l2]; rewrite ?Hcons in H;
      rewrite ?append_assoc in H; apply json_item_inj in H as [-> H].
    + injection H as ->. auto.
    + discriminate.
    + discriminate.
    + apply append_inv_head in H. apply IH in H as [-> ->]. auto.
Qed.

Lemma json_object_inj (l1 l2 : list (string * string)) :
  Json.json_object l1 = Json.json_object l2 -> l1 = l2.
Proof.
  unfold Json.json_object. cbn [append]. intros H. injection H as H.
  change "}" with (String "}" EmptyString) in H.
  now apply concat_items_inj in H.
Qed.

(** ** Sorting *)

Lemma string_leb_trans (x y z : string) :
  String.leb x y = true -> String.leb y z = true -> String.leb x z = true.
Proof.
  unfold String.leb.
  destruct (String.compare x y) eqn:Hxy; [| |discriminate];
    destruct (String.compare y z) eqn:Hyz; try discriminate; intros _ _.
  - apply String_as_OT.cmp_eq in Hxy, Hyz. subst.
    pose proof (proj2 (String_as_OT.cmp_eq z z) eq_refl) as H.
    unfold String_as_OT.cmp in H. now rewrite H.
  - apply String_as_OT.cmp_eq in Hxy. subst. now rewrite Hyz.
  - apply String_as_OT.cmp_eq in Hyz. subst. now rewrite Hxy.
  - apply String_as_OT.cmp_lt in Hxy, Hyz.
    pose proof (String_as_OT.lt_trans _ _ _ Hxy Hyz) as H.
    apply String_as_OT.cmp_lt in H. unfold String_as_OT.cmp in H. now rewrite H.
Qed.

Lemma insert_sorted_perm (x : string * string) (l : list (string * string)) :
  Permutation (ChoicesMade.insert_sorted x l) (x :: l).
Proof.
  induction l as [|y l IH]; simpl; [reflexivity|].
  destruct (ChoicesMade.key_leb x y); [reflexivity|].
  rewrite IH. apply perm_swap.
Qed.

Lemma sorted_items_perm (cm : ChoicesMade.t) :
  Permutation (ChoicesMade.sorted_items cm) cm.
Proof.
  induction cm as [|x cm IH]; simpl; [reflexivity|].
  rewrite insert_sorted_perm. now constructor.
Qed.

Lemma insert_sorted_sorted (x : string * string) (l : list (string * string)) :
  StronglySorted ChoicesMade.key_le l -> StronglySorted ChoicesMade.key_le (ChoicesMade.insert_sorted x l).
Proof.
  induction 1 as [|y l Hl IH Hy]; simpl.
  - repeat constructor.
  - destruct (ChoicesMade.key_leb x y) eqn:Hxy.
    + constructor; [now constructor|]. constructor; [exact Hxy|].
      eapply Forall_impl; [|exact Hy]. intros z Hz.
      unfold ChoicesMade.key_le, ChoicesMade.key_leb in *. eapply string_leb_trans; eassumption.
    + constructor; [exact IH|].
      eapply Permutation_Forall; [symmetry; apply insert_sorted_perm|].
      constructor; [|exact Hy].
      unfold ChoicesMade.key_le, ChoicesMade.key_leb in *.
      destruct (String.leb_total (fst x) (fst y)) as [H|H]; congruence.
Qed.

Lemma sorted_items_sorted (cm : ChoicesMade.t) :
  StronglySorted ChoicesMade.key_le (ChoicesMade.sorted_items cm).
Proof.
  induction cm as [|x cm IH]; simpl; [constructor | now apply insert_sorted_sorted].
Qed.

Lemma sorted_unique (l1 l2 : list (string * string)) :
  StronglySorted ChoicesMade.key_le l1 -> StronglySorted ChoicesMade.key_le l2 ->
  Permutation l1 l2 -> NoDup (map fst l1) -> l1 = l2.
Proof.
  intros H1. revert l2. induction H1 as [|x l1 Hl1 IH Hx]; intros l2 H2 Hp Hd.
  - apply Permutation_nil in Hp. now subst.
  - destruct H2 as [|y l2 Hl2 Hy].
    + symmetry in Hp. apply Permutation_nil in Hp. discriminate.
    + assert (x = y) as <-.
      { assert (Hin1 : In x (y :: l2)) by (eapply Permutation_in; [exact Hp | now left]).
        assert (Hin2 : In y (x :: l1))
          by (eapply Permutation_in; [symmetry; exact Hp | now left]).
        destruct Hin1 as [->|Hin1]; [reflexivity|].
        destruct Hin2 as [->|Hin2]; [reflexivity|].
        rewrite Forall_forall in Hx, Hy.
        pose proof (Hx _ Hin2) as Hxy. pose proof (Hy _ Hin1) as Hyx.
        unfold ChoicesMade.key_le, ChoicesMade.key_leb in *.
        pose proof (String.leb_antisym _ _ Hxy Hyx) as Hk.
        simpl in Hd. inversion Hd as [|? ? Hnin _]; subst.
        exfalso. apply Hnin. rewrite Hk. now apply in_map. }
      f_equal. apply IH; [exact Hl2 | now apply Permutation_cons_inv in Hp |].
      simpl in Hd. now inversion Hd.
Qed.

Lemma sorted_items_order (cm cm' : ChoicesMade.t) :
  NoDup (Dict.keys cm) -> Permutation cm cm' ->
  ChoicesMade.sorted_items cm = ChoicesMade.sorted_items cm'.
Proof.
  intros Hd Hp. apply sorted_unique; try apply sorted_items_sorted.
  - now rewrite !sorted_items_perm.
  - eapply Permutation_NoDup; [|exact Hd].
    apply Permutation_map. symmetry. apply sorted_items_perm.
Qed.

(** ** Adding a pair *)

Lemma pair_dec (x y : string * string) : {x = y} + {x <> y}.
Proof. decide equality; apply string_dec. Qed.

Lemma set_count (cm : ChoicesMade.t) (k a b : string) :
  a <> b ->
  count_occ pair_dec (Dict.set cm k a) (k, a)
  = S (count_occ pair_dec (Dict.set cm k b) (k, a)).
Proof.
  intros Hab. induction cm as [|[k' v'] cm IH]; simpl.
  - destruct (pair_dec (k, a) (k, a)); [|congruence].
    destruct (pair_dec (k, b) (k, a)); congruence.
  - destruct (String.eqb_spec k' k) as [->|Hk]; simpl.
    + destruct (pair_dec (k, a) (k, a)); [|congruence].
      destruct (pair_dec (k, b) (k, a)); congruence.
    + destruct (pair_dec (k', v') (k, a)); congruence.
Qed.

Lemma json_add_inj (cm : ChoicesMade.t) (k a b : string) :
  ChoicesMade.json (ChoicesMade.add cm k a) = ChoicesMade.json (ChoicesMade.add cm k b) ->
  a = b.
Proof.
  intros H. destruct (string_dec a b) as [|Hab]; [assumption|exfalso].
  apply json_object_inj in H.
  assert (Hp : Permutation (ChoicesMade.add cm k a) (ChoicesMade.add cm k b)).
  { rewrite <- (sorted_items_perm (ChoicesMade.add cm k a)), H. apply sorted_items_perm. }
  apply (Permutation_count_occ pair_dec) with (x := (k, a)) in Hp.
  unfold ChoicesMade.add in Hp. rewrite (set_count cm k a b Hab) in Hp. lia.
Qed.

(** A selection built with [add] has one pair per key, and two pairs
    with different keys may be added in either order. *)
Lemma set_keys {V : Type} (d : Dict.t V) (k : string) (v : V) :
  Dict.keys (Dict.set d k v)
  = if existsb (String.eqb k) (Dict.keys d) then Dict.keys d else Dict.keys d ++ [k].
Proof.
  unfold Dict.keys. induction d as [|[k' v'] d IH]; simpl; [reflexivity|].
  rewrite (String.eqb_sym k k').
  destruct (String.eqb k' k); simpl; [reflexivity|].
  rewrite IH. now destruct (existsb (String.eqb k) (map fst d)).
Qed.

Lemma add_keys_distinct (cm : ChoicesMade.t) (k v : string) :
  NoDup (Dict.keys cm) -> NoDup (Dict.keys (ChoicesMade.add cm k v)).
Proof.
  intros H. unfold ChoicesMade.add. rewrite set_keys.
  destruct (existsb (String.eqb k) (Dict.keys cm)) eqn:He; [exact H|].
  apply NoDup_app; [exact H | repeat constructor; intros [] |].
  intros x Hx [<-|[]].
  assert (Ht : existsb (String.eqb k) (Dict.keys cm) = true)
    by (apply existsb_exists; exists k; split; [exact Hx | apply String.eqb_refl]).
  congruence.
Qed.

Lemma add_swap (cm : ChoicesMade.t) (k1 v1 k2 v2 : string) :
  k1 <> k2 ->
  Permutation (ChoicesMade.add (ChoicesMade.add cm k1 v1) k2 v2)
              (ChoicesMade.add (ChoicesMade.add cm k2 v2) k1 v1).
Proof.
  intros Hk. unfold ChoicesMade.add.
  induction cm as [|[k v] cm IH]; simpl.
  - destruct (String.eqb_spec k1 k2) as [|_]; [contradiction|].
    destruct (String.eqb_spec k2 k1) as [|_]; [congruence|]. apply perm_swap.
  - destruct (String.eqb_spec k k1) as [E1|H1]; destruct (String.eqb_spec k k2) as [E2|H2];
      simpl.
    + exfalso. congruence.
    + subst k. rewrite String.eqb_refl.
      destruct (String.eqb_spec k1 k2) as [|_]; [contradiction | reflexivity].
    + subst k. rewrite String.eqb_refl.
      destruct (String.eqb_spec k2 k1) as [|_]; [congruence | reflexivity].
    + rewrite (proj2 (String.eqb_neq k k1) H1), (proj2 (String.eqb_neq k k2) H2).
      now constructor.
Qed.

Lemma json_add_swap (cm : ChoicesMade.t) (k1 v1 k2 v2 : string) :
  NoDup (Dict.keys cm) -> k1 <> k2 ->
  ChoicesMade.json (ChoicesMade.add (ChoicesMade.add cm k1 v1) k2 v2)
  = ChoicesMade.json (ChoicesMade.add (ChoicesMade.add cm k2 v2) k1 v1).
Proof.
  intros Hd Hk. unfold ChoicesMade.json. f_equal.
  apply sorted_items_order; [now repeat apply add_keys_distinct | now apply add_swap].
Qed.

(** ** The work-list loop *)

Section Loop.
Variable forbidden : list string.
Variable my_choices : ChoicesMade.t.

Lemma while_criteria_step (criteria clean : list Chooseable) :
  while_criteria forbidden my_choices criteria clean
  = match criteria with
    | [] => ret clean
    | _ :: _ =>
        lists <- one_pass forbidden my_choices criteria clean ;;
        while_criteria forbidden my_choices (retry_criteria lists) (clean_criteria lists)
    end.
Proof.
  destruct criteria as [|c cs]; simp while_criteria; [reflexivity|].
  generalize (inspect (one_pass forbidden my_choices (c :: cs) clean)).
  intros [[e|lists] Heq]; simp while_criteria; rewrite Heq; reflexivity.
Qed.

Lemma first_forbidden_some (k : Criterion) (os : OptionList) (o : Option) :
  first_forbidden forbidden my_choices k os = Some o ->
  In o os /\ is_forbidden forbidden my_choices k o = true.
Proof. unfold first_forbidden, iter_options. apply find_some. Qed.

Lemma first_forbidden_none (k : Criterion) (os : OptionList) :
  first_forbidden forbidden my_choices k os = None ->
  forall o, In o os -> is_forbidden forbidden my_choices k o = false.
Proof. unfold first_forbidden, iter_options. apply find_none. Qed.

Lemma option_eqb_refl (o : Option) : option_eqb o o = true.
Proof. unfold option_eqb. apply String.eqb_refl. Qed.

Lemma contains_in (os : OptionList) (o : Option) : In o os -> contains os o = true.
Proof.
  intros H. unfold contains. apply existsb_exists. exists o. split; [exact H|].
  apply option_eqb_refl.
Qed.

(** Options with one identifier are forbidden together. *)
Lemma is_forbidden_eqb (k : Criterion) (o o' : Option) :
  option_eqb o o' = true ->
  is_forbidden forbidden my_choices k o' = is_forbidden forbidden my_choices k o.
Proof.
  unfold option_eqb, is_forbidden, ChoicesMade.add_criterion_option.
  intros H. apply String.eqb_eq in H. now rewrite H.
Qed.

Lemma examine_ok (lists : Lists) (c : Chooseable) :
  examine forbidden my_choices lists c
  = inr {| clean_criteria :=
             clean_criteria lists ++ after_removals forbidden my_choices 0 c;
           retry_criteria :=
             retry_criteria lists ++ requeue forbidden my_choices c |}.
Proof.
  unfold examine, requeue, after_removals, accepts.
  destruct (first_forbidden forbidden my_choices (criterion c) (options c)) as [o|] eqn:Hf.
  - destruct (1 <? len (options c))%nat.
    + apply first_forbidden_some in Hf as [Hin _].
      unfold minus. rewrite (contains_in _ _ Hin). simpl.
      now rewrite app_nil_r.
    + destruct lists. simpl. now rewrite !app_nil_r.
  - rewrite app_nil_r. reflexivity.
Qed.

Lemma for_each_examine_ok (criteria : list Chooseable) (lists : Lists) :
  for_each (examine forbidden my_choices) criteria lists
  = inr {| clean_criteria :=
             clean_criteria lists
             ++ flat_map (after_removals forbidden my_choices 0) criteria;
           retry_criteria :=
             retry_criteria lists
             ++ flat_map (requeue forbidden my_choices) criteria |}.
Proof.
  revert lists. induction criteria as [|c cs IH]; intros lists.
  - destruct lists. simpl. now rewrite !app_nil_r.
  - cbn [for_each flat_map]. rewrite examine_ok. cbn [bind].
    rewrite IH. cbn [clean_criteria retry_criteria]. now rewrite <- !app_assoc.
Qed.

Lemma one_pass_ok (criteria clean : list Chooseable) :
  one_pass forbidden my_choices criteria clean
  = inr {| clean_criteria :=
             clean ++ flat_map (after_removals forbidden my_choices 0) criteria;
           retry_criteria := flat_map (requeue forbidden my_choices) criteria |}.
Proof. unfold one_pass. now rewrite for_each_examine_ok. Qed.

Lemma requeue_shorter (c c' : Chooseable) :
  In c' (requeue forbidden my_choices c) ->
  criterion c' = criterion c /\ len (options c') < len (options c).
Proof.
  unfold requeue.
  destruct (first_forbidden forbidden my_choices (criterion c) (options c)) as [o|] eqn:Hf;
    [|intros []].
  destruct (1 <? len (options c))%nat; [|intros []].
  intros [<-|[]]. split; [reflexivity|]. cbn [options].
  apply first_forbidden_some in Hf as [Hin _].
  apply (minus_shorter (options c) _ o). unfold minus.
  now rewrite (contains_in _ _ Hin).
Qed.

Lemma longest_ge (criteria : list Chooseable) (c : Chooseable) :
  In c criteria -> len (options c) <= longest criteria.
Proof.
  intros H. unfold longest.
  pose proof (list_max_le (map (fun c => len (options c)) criteria)
                          (list_max (map (fun c => len (options c)) criteria))) as [Hle _].
  specialize (Hle (le_n _)). rewrite Forall_forall in Hle.
  apply Hle. now apply (in_map (fun c => len (options c))).
Qed.

Lemma longest_requeued (criteria : list Chooseable) :
  flat_map (requeue forbidden my_choices) criteria = []
  \/ longest (flat_map (requeue forbidden my_choices) criteria) < longest criteria.
Proof.
  destruct (flat_map (requeue forbidden my_choices) criteria) as [|c' cs'] eqn:Hq;
    [now left | right].
  rewrite <- Hq. unfold longest at 1. apply list_max_lt.
  - rewrite Hq. discriminate.
  - apply Forall_forall. intros n Hn. apply in_map_iff in Hn as [c1 [<- Hc1]].
    apply in_flat_map in Hc1 as [c [Hc Hc1]].
    apply requeue_shorter in Hc1 as [_ Hlt].
    pose proof (longest_ge criteria c Hc). lia.
Qed.

(** The pairs accepted after [S k] removals are those accepted after
    [k] removals among the pairs queued again. *)
Lemma after_removals_requeued (k : nat) (criteria : list Chooseable) :
  flat_map (after_removals forbidden my_choices (S k)) criteria
  = flat_map (after_removals forbidden my_choices k)
             (flat_map (requeue forbidden my_choices) criteria).
Proof.
  induction criteria as [|c cs IH]; [reflexivity|].
  cbn [flat_map]. rewrite flat_map_app, <- IH. reflexivity.
Qed.

Lemma grouped_nil (n : nat) : grouped forbidden my_choices n [] = [].
Proof.
  unfold grouped. induction (seq 0 n) as [|k ks IH]; [reflexivity|]. exact IH.
Qed.

Lemma grouped_succ (n : nat) (criteria : list Chooseable) :
  grouped forbidden my_choices (S n) criteria
  = flat_map (after_removals forbidden my_choices 0) criteria
    ++ grouped forbidden my_choices n (flat_map (requeue forbidden my_choices) criteria).
Proof.
  unfold grouped. cbn [seq flat_map]. f_equal.
  rewrite <- seq_shift, flat_map_concat_map, map_map, <- flat_map_concat_map.
  apply flat_map_ext. intros k. apply after_removals_requeued.
Qed.

Lemma while_criteria_grouped (n : nat) (criteria clean : list Chooseable) :
  criteria = [] \/ longest criteria < n ->
  while_criteria forbidden my_choices criteria clean = inr (clean ++ grouped forbidden my_choices n criteria).
Proof.
  revert criteria clean. induction n as [|n IH]; intros criteria clean Hn.
  - destruct Hn as [->|Hn]; [|lia].
    rewrite while_criteria_step, grouped_nil, app_nil_r. reflexivity.
  - rewrite while_criteria_step. destruct criteria as [|c cs].
    + now rewrite grouped_nil, app_nil_r.
    + rewrite one_pass_ok. cbn [bind clean_criteria retry_criteria].
      rewrite IH, grouped_succ, app_assoc; [reflexivity|].
      destruct (longest_requeued (c :: cs)) as [Hq|Hq]; [now left|right].
      destruct Hn as [Hn|Hn]; [discriminate|lia].
Qed.
(** ** What becomes of one pair *)

Lemma filter_all {A : Type} (p : A -> bool) (l : list A) :
  (forall x, In x l -> p x = true) -> filter p l = l.
Proof.
  induction l as [|x l IH]; intros H; simpl; [reflexivity|].
  rewrite (H x (or_introl eq_refl)). f_equal. apply IH. intros y Hy. apply H. now right.
Qed.

Lemma filter_none {A : Type} (p : A -> bool) (l : list A) :
  (forall x, In x l -> p x = false) -> filter p l = [].
Proof.
  induction l as [|x l IH]; intros H; simpl; [reflexivity|].
  rewrite (H x (or_introl eq_refl)). apply IH. intros y Hy. apply H. now right.
Qed.

Lemma accepts_filtered (c : Chooseable) :
  accepts forbidden my_choices c = true -> filtered forbidden my_choices c = c.
Proof.
  unfold accepts, filtered, visible_options.
  destruct (first_forbidden forbidden my_choices (criterion c) (options c)) eqn:Hf;
    [discriminate|]. intros _.
  rewrite filter_all; [now destruct c|].
  intros o Ho. now rewrite (first_forbidden_none _ _ Hf o Ho).
Qed.

(** Taking a forbidden option away leaves the visible options as
    they are. *)
Lemma visible_options_minus (k : Criterion) (os : OptionList) (o : Option) :
  is_forbidden forbidden my_choices k o = true ->
  visible_options forbidden my_choices
    {| criterion := k; options := filter (fun o' => negb (option_eqb o o')) os |}
  = visible_options forbidden my_choices {| criterion := k; options := os |}.
Proof.
  intros Ho. unfold visible_options. cbn [criterion options].
  induction os as [|o' os IH]; [reflexivity|]. simpl.
  destruct (option_eqb o o') eqn:He; simpl.
  - rewrite (is_forbidden_eqb k o o' He), Ho. simpl. exact IH.
  - destruct (is_forbidden forbidden my_choices k o'); simpl; [exact IH | now rewrite IH].
Qed.

Lemma requeue_some (c : Chooseable) (o : Option) :
  first_forbidden forbidden my_choices (criterion c) (options c) = Some o ->
  (1 <? len (options c))%nat = true ->
  requeue forbidden my_choices c
  = [{| criterion := criterion c;
        options := filter (fun o' => negb (option_eqb o o')) (options c) |}].
Proof. unfold requeue. now intros -> ->. Qed.

Lemma filtered_requeued (c : Chooseable) (o : Option) :
  first_forbidden forbidden my_choices (criterion c) (options c) = Some o ->
  filtered forbidden my_choices
    {| criterion := criterion c;
       options := filter (fun o' => negb (option_eqb o o')) (options c) |}
  = filtered forbidden my_choices c.
Proof.
  intros Hf. apply first_forbidden_some in Hf as [_ Ho].
  unfold filtered. cbn [criterion]. f_equal.
  rewrite (visible_options_minus _ _ _ Ho). reflexivity.
Qed.

(** A pair with an option that is not forbidden reaches the clean
    criteria, reduced to its visible options, after as many removals as
    it takes and no more than it has options. *)
Lemma after_removals_visible (m : nat) (c : Chooseable) (o : Option) :
  len (options c) <= m ->
  In o (options c) ->
  is_forbidden forbidden my_choices (criterion c) o = false ->
  exists k, k <= len (options c)
            /\ after_removals forbidden my_choices k c = [filtered forbidden my_choices c].
Proof.
  revert c. induction m as [|m IH]; intros c Hm Ho Hv.
  - destruct c as [k [|o' os]]; [destruct Ho | simpl in Hm; lia].
  - destruct (first_forbidden forbidden my_choices (criterion c) (options c))
      as [o1|] eqn:Hf.
    + pose proof (first_forbidden_some _ _ _ Hf) as [Ho1 Hb].
      assert (Hne : option_eqb o1 o = false).
      { destruct (option_eqb o1 o) eqn:He; [|reflexivity].
        rewrite (is_forbidden_eqb _ _ _ He) in Hv. congruence. }
      assert (Hin : In o (filter (fun o' => negb (option_eqb o1 o')) (options c))).
      { apply filter_In. split; [exact Ho | now rewrite Hne]. }
      assert (Hlt : len (filter (fun o' => negb (option_eqb o1 o')) (options c))
                    < len (options c)).
      { apply (minus_shorter (options c) _ o1). unfold minus.
        now rewrite (contains_in _ _ Ho1). }
      assert (H1 : (1 <? len (options c))%nat = true).
      { apply Nat.ltb_lt. unfold len in *.
        destruct (filter (fun o' => negb (option_eqb o1 o')) (options c));
          [destruct Hin | simpl in Hlt; lia]. }
      destruct (IH {| criterion := criterion c;
                      options := filter (fun o' => negb (option_eqb o1 o')) (options c) |})
        as [k [Hk Hk']]; cbn [criterion options]; [lia | exact Hin | exact Hv |].
      exists (S k). split; [cbn [options] in Hk; lia|].
      cbn [after_removals]. rewrite (requeue_some c o1 Hf H1). cbn [flat_map].
      rewrite app_nil_r, Hk'. now rewrite (filtered_requeued c o1 Hf).
    + exists 0. split; [lia|]. cbn [after_removals].
      assert (Ha : accepts forbidden my_choices c = true) by (unfold accepts; now rewrite Hf).
      rewrite Ha. now rewrite (accepts_filtered c Ha).
Qed.

(** Every option that is not forbidden is in the clean criteria, with
    its criterion, whatever else the pair held. *)
Lemma grouped_keeps (n : nat) (criteria : list Chooseable) (c : Chooseable) (o : Option) :
  longest criteria < n ->
  In c criteria -> In o (options c) ->
  is_forbidden forbidden my_choices (criterion c) o = false ->
  In (filtered forbidden my_choices c) (grouped forbidden my_choices n criteria).
Proof.
  intros Hn Hc Ho Hv.
  destruct (after_removals_visible (len (options c)) c o (le_n _) Ho Hv) as [k [Hk Hk']].
  unfold grouped. apply in_flat_map. exists k. split.
  - apply in_seq. pose proof (longest_ge criteria c Hc). lia.
  - apply in_flat_map. exists c. split; [exact Hc|]. rewrite Hk'. now left.
Qed.

(** ** Pairs whose options have distinct identifiers *)

Lemma option_eqb_in (o o' : Option) (os : OptionList) :
  option_eqb o o' = true -> In o' os -> In (option_identifier o) (map option_identifier os).
Proof.
  unfold option_eqb. intros He Hin. apply String.eqb_eq in He. rewrite He.
  now apply in_map.
Qed.

Lemma nodup_filter_ids (p : Option -> bool) (os : OptionList) :
  NoDup (map option_identifier os) -> NoDup (map option_identifier (filter p os)).
Proof.
  induction os as [|o os IH]; simpl; intros H; [constructor|].
  inversion H as [|? ? Hnin Hd]; subst.
  destruct (p o); simpl; [|now apply IH].
  constructor; [|now apply IH].
  intros Hin. apply Hnin. apply in_map_iff in Hin as [o' [Hid Ho']].
  apply filter_In in Ho' as [Ho' _]. rewrite <- Hid. now apply in_map.
Qed.

(** With distinct identifiers, [minus] takes exactly one option away,
    and one forbidden option when the option is forbidden. *)
Lemma minus_one (p : Option -> bool) (os : OptionList) (o : Option) :
  NoDup (map option_identifier os) -> In o os ->
  S (len (filter (fun o' => negb (option_eqb o o')) os)) = len os
  /\ (p o = true ->
      S (List.length (filter p (filter (fun o' => negb (option_eqb o o')) os)))
      = List.length (filter p os)).
Proof.
  unfold len. induction os as [|o' os IH]; intros Hd Hin; [destruct Hin|].
  simpl in Hd. inversion Hd as [|? ? Hnin Hd']; subst.
  destruct Hin as [->|Hin].
  - assert (Hrest : filter (fun o' => negb (option_eqb o o')) os = os).
    { apply filter_all. intros x Hx. destruct (option_eqb o x) eqn:He; [|reflexivity].
      exfalso. apply Hnin. exact (option_eqb_in o x os He Hx). }
    simpl. rewrite option_eqb_refl. simpl. rewrite Hrest.
    split; [reflexivity|]. now intros ->.
  - assert (He : option_eqb o o' = false).
    { destruct (option_eqb o o') eqn:He; [|reflexivity].
      exfalso. apply Hnin. unfold option_eqb in He. apply String.eqb_eq in He.
      rewrite <- He. now apply in_map. }
    destruct (IH Hd' Hin) as [Hlen Hp].
    simpl. rewrite He. simpl. split; [now rewrite Hlen|].
    intros Hpo. specialize (Hp Hpo). destruct (p o'); simpl; now rewrite Hp.
Qed.

Lemma accepts_removals (c : Chooseable) :
  accepts forbidden my_choices c = (removals forbidden my_choices c =? 0)%nat.
Proof.
  unfold accepts, removals.
  destruct (first_forbidden forbidden my_choices (criterion c) (options c)) as [o|] eqn:Hf.
  - apply first_forbidden_some in Hf as [Hin Ho].
    assert (H : In o (filter (is_forbidden forbidden my_choices (criterion c)) (options c)))
      by (apply filter_In; auto).
    destruct (filter _ (options c)); [destruct H | reflexivity].
  - pose proof (first_forbidden_none _ _ Hf) as Hn.
    assert (H : filter (is_forbidden forbidden my_choices (criterion c)) (options c) = []).
    { apply filter_none. exact Hn. }
    now rewrite H.
Qed.

Lemma removals_le (c : Chooseable) :
  removals forbidden my_choices c <= len (options c).
Proof. unfold removals, len. apply filter_length_le. Qed.

(** With distinct identifiers a pair reaches the clean criteria after
    exactly as many removals as it has forbidden options, unless all
    its options are forbidden. *)
Lemma after_removals_exact (k : nat) (c : Chooseable) :
  distinct_options c ->
  after_removals forbidden my_choices k c
  = if (removals forbidden my_choices c =? k)%nat && shown forbidden my_choices c
    then [filtered forbidden my_choices c] else [].
Proof.
  revert c. induction k as [|k IH]; intros c Hd.
  - cbn [after_removals]. rewrite accepts_removals.
    destruct (removals forbidden my_choices c =? 0)%nat eqn:Hr; [|reflexivity].
    assert (Ha : accepts forbidden my_choices c = true) by now rewrite accepts_removals.
    rewrite (accepts_filtered c Ha).
    unfold shown. apply Nat.eqb_eq in Hr. rewrite Hr.
    destruct (len (options c)); reflexivity.
  - cbn [after_removals]. unfold requeue.
    destruct (first_forbidden forbidden my_choices (criterion c) (options c))
      as [o|] eqn:Hf.
    + pose proof (first_forbidden_some _ _ _ Hf) as [Hin Ho].
      destruct (minus_one (is_forbidden forbidden my_choices (criterion c))
                          (options c) o Hd Hin) as [Hlen Hrem].
      specialize (Hrem Ho).
      pose proof (removals_le c) as Hle. unfold removals in Hle.
      destruct (1 <? len (options c))%nat eqn:H1.
      * cbn [flat_map]. rewrite app_nil_r, IH;
          [|unfold distinct_options; cbn [options]; now apply nodup_filter_ids].
        rewrite (filtered_requeued c o Hf).
        unfold shown, removals. cbn [criterion options].
        apply Nat.ltb_lt in H1.
        replace (List.length (filter (is_forbidden forbidden my_choices (criterion c))
                                (options c)) =? S k)%nat
          with (List.length
                  (filter (is_forbidden forbidden my_choices (criterion c))
                     (filter (fun o' => negb (option_eqb o o')) (options c))) =? k)%nat
          by (rewrite <- Hrem; reflexivity).
        replace (len (filter (fun o' => negb (option_eqb o o')) (options c)) =? 0)%nat
          with false by (symmetry; apply Nat.eqb_neq; lia).
        replace (len (options c) =? 0)%nat
          with false by (symmetry; apply Nat.eqb_neq; lia).
        replace (List.length
                   (filter (is_forbidden forbidden my_choices (criterion c))
                      (filter (fun o' => negb (option_eqb o o')) (options c)))
                 <? len (filter (fun o' => negb (option_eqb o o')) (options c)))%nat
          with (List.length (filter (is_forbidden forbidden my_choices (criterion c))
                               (options c)) <? len (options c))%nat
          by (rewrite <- Hrem, <- Hlen; reflexivity).
        reflexivity.
      * apply Nat.ltb_ge in H1. cbn [flat_map].
        unfold shown, removals.
        assert (Hone : len (options c) = 1) by lia.
        assert (Hr1 : List.length (filter (is_forbidden forbidden my_choices (criterion c))
                                     (options c)) = 1) by lia.
        rewrite Hr1, Hone. now rewrite andb_false_r.
    + cbn [flat_map].
      assert (Ha : accepts forbidden my_choices c = true) by (unfold accepts; now rewrite Hf).
      rewrite accepts_removals in Ha. apply Nat.eqb_eq in Ha. now rewrite Ha.
Qed.

Lemma pass_group_exact (k : nat) (criteria : list Chooseable) :
  Forall distinct_options criteria ->
  flat_map (after_removals forbidden my_choices k) criteria
  = pass_group forbidden my_choices criteria k.
Proof.
  unfold pass_group. induction 1 as [|c cs Hc Hcs IH]; [reflexivity|].
  cbn [flat_map filter]. rewrite IH, (after_removals_exact k c Hc).
  destruct ((removals forbidden my_choices c =? k)%nat && shown forbidden my_choices c);
    reflexivity.
Qed.

Lemma grouped_exact (n : nat) (criteria : list Chooseable) :
  Forall distinct_options criteria ->
  grouped forbidden my_choices n criteria
  = flat_map (pass_group forbidden my_choices criteria) (seq 0 n).
Proof.
  intros H. unfold grouped. apply flat_map_ext. intros k. now apply pass_group_exact.
Qed.

(** ** The passes come to an end *)

Lemma worklist_after_empty (m : nat) (criteria : list Chooseable) :
  criteria = [] \/ longest criteria < m ->
  exists n, n <= m /\ worklist_after forbidden my_choices n criteria = inr [].
Proof.
  revert criteria. induction m as [|m IH]; intros criteria Hm.
  - destruct Hm as [->|Hm]; [|lia]. exists 0. split; [lia | reflexivity].
  - destruct criteria as [|c cs]; [exists 0; split; [lia | reflexivity]|].
    destruct (IH (flat_map (requeue forbidden my_choices) (c :: cs))) as [n [Hn Hw]].
    + destruct (longest_requeued (c :: cs)) as [Hq|Hq]; [now left | right].
      destruct Hm as [Hm|Hm]; [discriminate | lia].
    + exists (S n). split; [lia|]. cbn [worklist_after].
      rewrite one_pass_ok. exact Hw.
Qed.

Lemma requeued_shorter (criteria : list Chooseable) :
  Forall (fun c' =>
            Exists (fun c => criterion c' = criterion c
                             /\ len (options c') < len (options c)) criteria)
         (flat_map (requeue forbidden my_choices) criteria).
Proof.
  apply Forall_forall. intros c' Hc'. apply in_flat_map in Hc' as [c [Hc Hc']].
  apply Exists_exists. exists c. split; [exact Hc|]. now apply requeue_shorter.
Qed.

Lemma is_forbidden_false (k : Criterion) (o : Option) :
  ~ In (ChoicesMade.json (ChoicesMade.add_criterion_option my_choices k o)) forbidden ->
  is_forbidden forbidden my_choices k o = false.
Proof.
  intros H. unfold is_forbidden, in_strings.
  destruct (existsb _ forbidden) eqn:He; [|reflexivity].
  exfalso. apply H. apply existsb_exists in He as [x [Hx He]].
  apply String.eqb_eq in He. now subst.
Qed.

Lemma is_forbidden_true (k : Criterion) (o : Option) :
  In (ChoicesMade.json (ChoicesMade.add_criterion_option my_choices k o)) forbidden ->
  is_forbidden forbidden my_choices k o = true.
Proof.
  intros H. unfold is_forbidden, in_strings. apply existsb_exists.
  eexists. split; [exact H | apply String.eqb_refl].
Qed.

(** When nothing is forbidden the first pass accepts every pair. *)
Lemma grouped_unchanged (n : nat) (criteria : list Chooseable) :
  (forall c o, In c criteria -> In o (options c) ->
               is_forbidden forbidden my_choices (criterion c) o = false) ->
  grouped forbidden my_choices (S n) criteria = criteria.
Proof.
  intros H. rewrite grouped_succ.
  assert (Hq : flat_map (requeue forbidden my_choices) criteria = []
               /\ flat_map (after_removals forbidden my_choices 0) criteria = criteria).
  { induction criteria as [|c cs IH]; [split; reflexivity|].
    destruct IH as [IH1 IH2]; [intros c' o Hc'; apply H; now right|].
    assert (Hf : first_forbidden forbidden my_choices (criterion c) (options c) = None).
    { unfold first_forbidden, iter_options.
      destruct (find _ (options c)) as [o|] eqn:Hfind; [|reflexivity].
      apply find_some in Hfind as [Ho Hb].
      rewrite (H c o (or_introl eq_refl) Ho) in Hb. discriminate. }
    cbn [flat_map]. rewrite IH1, IH2. cbn [after_removals].
    unfold requeue, accepts. rewrite Hf. split; reflexivity. }
  destruct Hq as [-> ->]. now rewrite grouped_nil, app_nil_r.
Qed.

End Loop.

(** ** [visible_criteria] *)

Lemma visible_criteria_grouped (db : Database) (self : AugmentedDataSource)
  (forbidden : list string) (my_choices : ChoicesMade.t) :
  forbidden_choices_json db self = inr forbidden ->
  _choices_made self = Some my_choices ->
  visible_criteria db self
  = inr (grouped forbidden my_choices
           (S (longest (chooseable_criteria self))) (chooseable_criteria self)).
Proof.
  intros Hf Hc. unfold visible_criteria. rewrite Hf, Hc. cbn [bind].
  rewrite (while_criteria_grouped forbidden my_choices
             (S (longest (chooseable_criteria self)))); [reflexivity | right; lia].
Qed.

Lemma choices_made_of_error (layers : list (option DatasourceLayer)) (e : exn) :
  choices_made_of layers = inl e -> e = AttributeError.
Proof.
  induction layers as [|[layer|] layers IH]; simpl; intros H.
  - discriminate.
  - destruct (choices_made_of layers); [|discriminate].
    injection H as <-. now apply IH.
  - now injection H as <-.
Qed.

(** The only exception of [visible_criteria] is the attribute error of
    a selection that was never set or of a hidden colour specification
    without a layer. *)
Lemma visible_criteria_error (db : Database) (self : AugmentedDataSource) (e : exn) :
  visible_criteria db self = inl e -> e = AttributeError.
Proof.
  unfold visible_criteria, forbidden_choices_json.
  destruct (choices_made_of _) as [e'|from_colors] eqn:Hl; cbn [bind ret].
  - intros H. injection H as <-. now apply choices_made_of_error in Hl.
  - destruct (_choices_made self) as [my_choices|]; [|intros H; now injection H as <-].
    rewrite (while_criteria_grouped _ my_choices
               (S (longest (chooseable_criteria self)))); [discriminate | right; lia].
Qed.

(** C1: with one criterion whose options are a, b and c, and the
    combination that extends the selection with b as the only
    forbidden one, the filter returns that criterion with the options a
    and c; when the combinations of a, b and c are all forbidden, the
    criterion is not in the output. *)
Theorem visible_criteria_one_criterion
  (db_b db_abc : Database) (self : AugmentedDataSource)
  (my_choices : ChoicesMade.t) (k : Criterion) (a b c : Option)
  (forbidden_abc : list string) :
  chooseable_criteria self = [{| criterion := k; options := [a; b; c] |}] ->
  _choices_made self = Some my_choices ->
  option_identifier a <> option_identifier b ->
  option_identifier a <> option_identifier c ->
  option_identifier b <> option_identifier c ->
  forbidden_choices_json db_b self
  = inr [ChoicesMade.json (ChoicesMade.add_criterion_option my_choices k b)] ->
  forbidden_choices_json db_abc self = inr forbidden_abc ->
  In (ChoicesMade.json (ChoicesMade.add_criterion_option my_choices k a)) forbidden_abc ->
  In (ChoicesMade.json (ChoicesMade.add_criterion_option my_choices k b)) forbidden_abc ->
  In (ChoicesMade.json (ChoicesMade.add_criterion_option my_choices k c)) forbidden_abc ->
  visible_criteria db_b self = inr [{| criterion := k; options := [a; c] |}]
  /\ visible_criteria db_abc self = inr [].
Proof.
  intros Hcrit Hsel Hab Hac Hbc Hfb Hfabc Ha Hb Hc.
  assert (Hd : Forall distinct_options (chooseable_criteria self)).
  { rewrite Hcrit. constructor; [|constructor]. unfold distinct_options. cbn [options map].
    repeat constructor; simpl; intuition congruence. }
  assert (Hone : forall o,
             option_identifier o <> option_identifier b ->
             is_forbidden [ChoicesMade.json (ChoicesMade.add_criterion_option my_choices k b)]
               my_choices k o = false).
  { intros o Ho. apply is_forbidden_false. intros [H|[]]. apply Ho.
    symmetry. exact (json_add_inj _ _ _ _ H). }
  pose proof (Hone a Hab) as Ha1. pose proof (Hone c (fun H => Hbc (eq_sym H))) as Hc1.
  pose proof (is_forbidden_true
                [ChoicesMade.json (ChoicesMade.add_criterion_option my_choices k b)]
                my_choices k b (or_introl eq_refl)) as Hb1.
  apply is_forbidden_true in Ha, Hb, Hc. clear Hone.
  remember [ChoicesMade.json (ChoicesMade.add_criterion_option my_choices k b)]
    as forbidden_b eqn:Hforbidden_b.
  clear Hforbidden_b.
  split.
  - rewrite (visible_criteria_grouped db_b self _ my_choices Hfb Hsel).
    rewrite (grouped_exact _ _ _ _ Hd), Hcrit.
    unfold pass_group, shown, filtered, visible_options, removals, longest.
    cbn -[is_forbidden]. rewrite Ha1, Hb1, Hc1. cbn -[is_forbidden].
    rewrite Ha1, Hb1, Hc1. reflexivity.
  - rewrite (visible_criteria_grouped db_abc self _ my_choices Hfabc Hsel).
    rewrite (grouped_exact _ _ _ _ Hd), Hcrit.
    unfold pass_group, shown, filtered, visible_options, removals, longest.
    cbn -[is_forbidden]. rewrite Ha, Hb, Hc. reflexivity.
Qed.

(** C2: whatever the criteria, the forbidden combinations and the
    selection, an option whose extension of the selection serializes
    to none of the forbidden strings is in the output of the filter,
    under its criterion, in the pair reduced to the options that are
    not forbidden. *)
Theorem visible_criteria_keeps_allowed (db : Database) (self : AugmentedDataSource)
  (forbidden : list string) (my_choices : ChoicesMade.t)
  (chooseable : Chooseable) (option : Option) :
  forbidden_choices_json db self = inr forbidden ->
  _choices_made self = Some my_choices ->
  In chooseable (chooseable_criteria self) ->
  In option (options chooseable) ->
  ~ In (ChoicesMade.json
          (ChoicesMade.add_criterion_option my_choices (criterion chooseable) option))
       forbidden ->
  exists clean kept,
    visible_criteria db self = inr clean
    /\ In kept clean
    /\ criterion kept = criterion chooseable
    /\ In option (options kept)
    /\ kept = filtered forbidden my_choices chooseable.
Proof.
  intros Hf Hsel Hc Ho Hv. apply is_forbidden_false in Hv.
  exists (grouped forbidden my_choices
            (S (longest (chooseable_criteria self))) (chooseable_criteria self)),
         (filtered forbidden my_choices chooseable).
  split; [now apply visible_criteria_grouped|].
  split; [apply grouped_keeps with (o := option); auto|].
  split; [reflexivity|]. split; [|reflexivity].
  unfold filtered, visible_options. cbn [options]. apply filter_In.
  split; [exact Ho | now rewrite Hv].
Qed.

(** C3: a pass of the loop succeeds and queues again only pairs that
    are strictly shorter than a pair, with the same criterion, of the
    list it worked on; after at most one pass more than the longest
    option list has options the work list is empty, and the loop
    returns. *)
Theorem while_criteria_terminates (forbidden : list string)
  (my_choices : ChoicesMade.t) (criteria clean : list Chooseable) :
  exists lists n out,
    one_pass forbidden my_choices criteria clean = inr lists
    /\ Forall (fun c' =>
                 Exists (fun c => criterion c' = criterion c
                                  /\ len (options c') < len (options c)) criteria)
              (retry_criteria lists)
    /\ n <= S (longest criteria)
    /\ worklist_after forbidden my_choices n criteria = inr []
    /\ while_criteria forbidden my_choices criteria clean = inr out.
Proof.
  destruct (worklist_after_empty forbidden my_choices (S (longest criteria)) criteria)
    as [n [Hn Hw]]; [right; lia|].
  eexists _, n, _. split; [apply one_pass_ok|]. cbn [retry_criteria].
  split; [apply requeued_shorter|]. split; [exact Hn|]. split; [exact Hw|].
  apply (while_criteria_grouped forbidden my_choices (S (longest criteria))). right. lia.
Qed.

(** C5, as the code has it: a forbidden combination that no option of
    the criteria space produces is ignored.  When no option is
    forbidden the chooseable criteria are returned as they are, and
    whatever the configuration the filter raises no configuration
    error: it returns, or fails for want of an attribute. *)
Theorem visible_criteria_ignores_stale (db : Database) (self : AugmentedDataSource)
  (forbidden : list string) (my_choices : ChoicesMade.t) :
  forbidden_choices_json db self = inr forbidden ->
  _choices_made self = Some my_choices ->
  (forall c o, In c (chooseable_criteria self) -> In o (options c) ->
     ~ In (ChoicesMade.json (ChoicesMade.add_criterion_option my_choices (criterion c) o))
          forbidden) ->
  visible_criteria db self = inr (chooseable_criteria self)
  /\ (forall (db' : Database) (self' : AugmentedDataSource),
        visible_criteria db' self' = inl AttributeError
        \/ exists clean, visible_criteria db' self' = inr clean).
Proof.
  intros Hf Hsel Hstale. split.
  - rewrite (visible_criteria_grouped db self forbidden my_choices Hf Hsel).
    f_equal. apply grouped_unchanged. intros c o Hc Ho.
    apply is_forbidden_false. now apply Hstale.
  - intros db' self'. destruct (visible_criteria db' self') as [e|clean] eqn:Hv.
    + left. now rewrite (visible_criteria_error db' self' e Hv).
    + right. now exists clean.
Qed.

(** C10: when the options of each pair have distinct identifiers, the
    output lists the pairs pass by pass: first, in the order of the
    chooseable criteria, the pairs without a forbidden option, then in
    that order again the pairs with one forbidden option, and so on,
    each reduced to its options that are not forbidden; a pair all of
    whose options are forbidden is not listed. *)
Theorem visible_criteria_grouped_by_pass (db : Database) (self : AugmentedDataSource)
  (forbidden : list string) (my_choices : ChoicesMade.t) :
  forbidden_choices_json db self = inr forbidden ->
  _choices_made self = Some my_choices ->
  Forall distinct_options (chooseable_criteria self) ->
  visible_criteria db self
  = inr (flat_map (pass_group forbidden my_choices (chooseable_criteria self))
                  (seq 0 (S (longest (chooseable_criteria self))))).
Proof.
  intros Hf Hsel Hd.
  rewrite (visible_criteria_grouped db self forbidden my_choices Hf Hsel).
  now rewrite grouped_exact.
Qed.

(** ** Canonical serialization *)

(** C4: the canonical serialization of a selection is the JSON object
    of its pairs with the keys in sorted order, whatever the order in
    which the pairs were inserted; the selection of the test, built in
    either order, serializes to the text the test expects. *)
Theorem json_sorts_keys (cm cm' : ChoicesMade.t) :
  NoDup (Dict.keys cm) ->
  Permutation cm cm' ->
  exists items,
    ChoicesMade.json cm = Json.json_object items
    /\ Permutation items cm
    /\ StronglySorted ChoicesMade.key_le items
    /\ ChoicesMade.json cm' = ChoicesMade.json cm
    /\ ChoicesMade.json
         (ChoicesMade.add (ChoicesMade.add ChoicesMade.empty "test" "value") "a" "b")
       = ChoicesMade.test_json_sorts_keys_expected
    /\ ChoicesMade.json
         (ChoicesMade.add (ChoicesMade.add ChoicesMade.empty "a" "b") "test" "value")
       = ChoicesMade.test_json_sorts_keys_expected.
Proof.
  intros Hd Hp. exists (ChoicesMade.sorted_items cm).
  split; [reflexivity|]. split; [apply sorted_items_perm|].
  split; [apply sorted_items_sorted|].
  split; [unfold ChoicesMade.json; now rewrite (sorted_items_order cm cm' Hd Hp)|].
  split; reflexivity.
Qed.

(** ** Dictionaries *)

Lemma dict_get_set {V : Type} (d : Dict.t V) (k k' : string) (v : V) :
  Dict.get (Dict.set d k' v) k = if String.eqb k' k then Some v else Dict.get d k.
Proof.
  induction d as [|[k0 v0] d IH]; simpl.
  - reflexivity.
  - destruct (String.eqb_spec k0 k') as [->|Hne]; simpl.
    + destruct (String.eqb k' k); reflexivity.
    + rewrite IH. destruct (String.eqb_spec k0 k) as [->|Hk]; [|reflexivity].
      destruct (String.eqb_spec k' k) as [->|]; [congruence | reflexivity].
Qed.

Lemma dict_fold_get {V : Type} (pairs : list (string * V)) (d : Dict.t V)
  (k : string) :
  (~ In k (map fst pairs) ->
   Dict.get (fold_left (fun d kv => Dict.set d (fst kv) (snd kv)) pairs d) k
   = Dict.get d k)
  /\ (forall v,
        Dict.get (fold_left (fun d kv => Dict.set d (fst kv) (snd kv)) pairs d) k = Some v ->
        Dict.get d k = Some v \/ In (k, v) pairs).
Proof.
  revert d. induction pairs as [|[k' v'] pairs IH]; intros d; simpl.
  - split; auto.
  - destruct (IH (Dict.set d k' v')) as [IH1 IH2]. split.
    + intros Hn. rewrite IH1 by tauto. rewrite dict_get_set.
      destruct (String.eqb_spec k' k); [tauto | reflexivity].
    + intros v Hv. apply IH2 in Hv as [Hv|Hv]; [|tauto].
      rewrite dict_get_set in Hv. destruct (String.eqb_spec k' k) as [->|]; [|tauto].
      injection Hv as ->. tauto.
Qed.

(** ** [locations] *)


Lemma cached_values_some (db : Database) (colorfrom : ColorFromLatestValue)
  (i : string) (v : value) :
  Dict.get (cached_values_for db colorfrom) i = Some v ->
  exists cached_value layer,
    In cached_value (DatasourceCache_objects db)
    /\ layer_to_get_color_from colorfrom = Some layer
    /\ layer_eqb (dc_datasource_layer cached_value) layer = true
    /\ locationid cached_value = i
    /\ dc_value cached_value = v.
Proof.
  unfold cached_values_for.
  destruct (layer_to_get_color_from colorfrom) as [layer|]; [|discriminate].
  unfold Dict.of_pairs. intros H.
  apply (proj2 (dict_fold_get _ [] i)) in H as [H|H]; [discriminate|].
  apply in_map_iff in H as [row [Hrow Hin]]. injection Hrow as Hid Hv.
  apply filter_In in Hin as [Hin Hl]. exists row, layer. auto.
Qed.


(** C9: when the colour specification for the layer names no layer to
    take the colours from, a call that is not bare gives every
    location the gray colour. *)
Theorem locations_gray_without_source (db : Database) (self : AugmentedDataSource)
  (colorfrom : ColorFromLatestValue) :
  _colorfrom db self = inr (Some colorfrom) ->
  layer_to_get_color_from colorfrom = None ->
  cached_values_for db colorfrom = []
  /\ locations db self false
     = inr (map (fun location =>
                   {| identifier := identifier location;
                      latitude := latitude location;
                      longitude := longitude location;
                      color := Some "888888" |})
                (ds_locations (original_datasource self) false)).
Proof.
  intros Hc Hn.
  assert (Hv : cached_values_for db colorfrom = [])
    by (unfold cached_values_for; now rewrite Hn).
  split; [exact Hv|].
  unfold locations. rewrite Hc. cbn [bind]. rewrite Hv. reflexivity.
Qed.

(** ** [timeseries] *)

Lemma add_extra_line_series (location_id : string)
  (start_datetime end_datetime : option datetime)
  (timeseries : Timeseries) (extra_graph_line : ExtraGraphLine) :
  add_extra_line location_id start_datetime end_datetime timeseries extra_graph_line
  = fold_left ts_add
      (extra_series location_id start_datetime end_datetime extra_graph_line)
      timeseries.
Proof.
  unfold add_extra_line, extra_series.
  destruct (map_identifier extra_graph_line location_id) as [[|c rest]|]; simpl;
    try reflexivity.
  destruct (ts_bool _); reflexivity.
Qed.

(** C8, as the code has it: an extra graph line whose mapping has no
    identifier for the location, or an empty one, adds nothing and the
    result of the wrapped source is still returned; a line with a
    mapped identifier has the series of its source layer fetched for
    that identifier, and merged with [add] when that series is true,
    in the order of the lines. *)
Theorem timeseries_overlays (db : Database) (self : AugmentedDataSource)
  (location_id : string) (start_datetime end_datetime : option datetime) :
  timeseries db self location_id start_datetime end_datetime
  = fold_left ts_add
      (flat_map (extra_series location_id start_datetime end_datetime)
                (lines_added_to db self))
      (ds_timeseries (original_datasource self) location_id start_datetime end_datetime)
  /\ Forall
       (fun line =>
          (identifier_bool (map_identifier line location_id) = false ->
           extra_series location_id start_datetime end_datetime line = [])
          /\ (forall extra_identifier,
                map_identifier line location_id = Some extra_identifier ->
                extra_identifier <> EmptyString ->
                extra_series location_id start_datetime end_datetime line
                = let extra_timeseries :=
                    ds_timeseries (get_datasource_by_layer (layer_to_get_line_from line))
                                  extra_identifier start_datetime end_datetime in
                  if ts_bool extra_timeseries then [extra_timeseries] else []))
       (lines_added_to db self).
Proof.
  split.
  - unfold timeseries.
    generalize (ds_timeseries (original_datasource self) location_id
                  start_datetime end_datetime).
    induction (lines_added_to db self) as [|line lines IH]; intros ts; [reflexivity|].
    cbn [fold_left flat_map]. rewrite fold_left_app, <- add_extra_line_series.
    apply IH.
  - apply Forall_forall. intros line _. unfold extra_series. split.
    + destruct (map_identifier line location_id) as [[|c rest]|]; simpl;
        [reflexivity | discriminate | reflexivity].
    + intros extra_identifier -> Hne.
      destruct extra_identifier as [|c rest]; [contradiction | reflexivity].
Qed.

(** ** [fill_mapping_with_closest_locations] *)



(** * The other methods of the augmented source *)

(** The name of the configuration object of an augmented source, and
    the legend of a colour map, as the models give them. *)
Context {Legend : Type}.
Variable config_name : AugmentedDataSource -> string.
Variable legend : ColorMap -> Legend.

(** [str.format] of a non-negative integer: its decimal digits. *)
Definition format_int (n : nat) : string :=
  NilEmpty.string_of_uint (Nat.to_uint n).

(** The property [identifier] of the augmented source. *)
Definition augmented_identifier (self : AugmentedDataSource) : string :=
  "augmented_" ++ format_int (config_object self) ++ "_" ++ config_name self.

Definition originating_app : string := "lizard_datasource".


(** The columns of a percentile layer that [visible_criteria] does not
    read, the comparison of two percentiles as dictionary keys, and the
    method [data] of a time series. *)
Context {Percentile Data : Type}.
Variable layer_to_add_percentile_to : PercentileLayer -> DatasourceLayer.
Variable percentile : PercentileLayer -> Percentile.
Variable percentile_eqb : Percentile -> Percentile -> bool.
Variable data : Timeseries -> Data.

Definition percentile_layers_of (db : Database) (self : AugmentedDataSource)
  : list PercentileLayer :=
  filter (fun p => layer_eqb (layer_to_add_percentile_to p) (datasource_layer self))
         (PercentileLayer_objects db).


(** [percentiles[key] = value] on a dictionary keyed by percentiles. *)
Fixpoint percentiles_set (d : list (Percentile * Data)) (key : Percentile)
  (value : Data) : list (Percentile * Data) :=
  match d with
  | [] => [(key, value)]
  | (k, v) :: d' =>
      if percentile_eqb k key then (k, value) :: d'
      else (k, v) :: percentiles_set d' key value
  end.

Definition percentiles (db : Database) (self : AugmentedDataSource)
  (location_id : string) (start_datetime end_datetime : option datetime)
  : list (Percentile * Data) :=
  fold_left
    (fun percentiles percentile_layer =>
       let source :=
         get_datasource_by_layer (layer_to_get_percentile_from percentile_layer) in
       percentiles_set percentiles (percentile percentile_layer)
         (data (ds_timeseries source location_id start_datetime end_datetime)))
    (percentile_layers_of db self) [].

(** * More about [visible_criteria] *)

Lemma after_removals_filtered (forbidden : list string) (my_choices : ChoicesMade.t)
  (k : nat) (c c' : Chooseable) :
  In c' (after_removals forbidden my_choices k c) ->
  c' = filtered forbidden my_choices c.
Proof.
  revert c. induction k as [|k IH]; intros c; cbn [after_removals].
  - destruct (accepts forbidden my_choices c) eqn:Ha; [|intros []].
    intros [<-|[]]. symmetry. now apply accepts_filtered.
  - unfold requeue.
    destruct (first_forbidden forbidden my_choices (criterion c) (options c))
      as [o|] eqn:Hf; [|intros []].
    destruct (1 <? len (options c))%nat; [|intros []].
    cbn [flat_map]. rewrite app_nil_r. intros H. apply IH in H.
    now rewrite (filtered_requeued forbidden my_choices c o Hf) in H.
Qed.

Lemma after_removals_short (forbidden : list string) (my_choices : ChoicesMade.t)
  (k : nat) (c : Chooseable) :
  List.length (after_removals forbidden my_choices k c) <= 1.
Proof.
  revert c. induction k as [|k IH]; intros c; cbn [after_removals].
  - destruct (accepts forbidden my_choices c); simpl; lia.
  - unfold requeue.
    destruct (first_forbidden forbidden my_choices (criterion c) (options c));
      [|simpl; lia].
    destruct (1 <? len (options c))%nat; [|simpl; lia].
    cbn [flat_map]. rewrite app_nil_r. apply IH.
Qed.

(** A pair is accepted in one pass at most. *)
Lemma after_removals_once (forbidden : list string) (my_choices : ChoicesMade.t)
  (k1 k2 : nat) (c : Chooseable) :
  after_removals forbidden my_choices k1 c <> [] ->
  after_removals forbidden my_choices k2 c <> [] ->
  k1 = k2.
Proof.
  revert k2 c. induction k1 as [|k1 IH]; intros [|k2] c; cbn [after_removals];
    unfold accepts, requeue;
    destruct (first_forbidden forbidden my_choices (criterion c) (options c));
    cbn [flat_map]; try congruence.
  destruct (1 <? len (options c))%nat; cbn [flat_map]; [|congruence].
  rewrite !app_nil_r. intros H1 H2. f_equal. exact (IH _ _ H1 H2).
Qed.

Lemma flat_map_all_nil {A B : Type} (f : A -> list B) (l : list A) :
  (forall x, In x l -> f x = []) -> flat_map f l = [].
Proof.
  induction l as [|x l IH]; intros H; simpl; [reflexivity|].
  rewrite (H x (or_introl eq_refl)). apply IH. intros y Hy. apply H. now right.
Qed.

Lemma flat_map_once {A : Type} (f : nat -> list A) (ks : list nat) :
  (forall k, List.length (f k) <= 1) ->
  (forall k1 k2, f k1 <> [] -> f k2 <> [] -> k1 = k2) ->
  NoDup ks ->
  List.length (flat_map f ks) <= 1.
Proof.
  intros Hshort Honce. induction 1 as [|k ks Hk Hd IH]; simpl; [lia|].
  rewrite length_app. destruct (f k) as [|x xs] eqn:Hfk.
  - simpl. exact IH.
  - assert (Hnone : flat_map f ks = []).
    { apply flat_map_all_nil. intros k' Hk'.
      destruct (f k') eqn:Hfk'; [reflexivity|].
      exfalso. apply Hk. rewrite (Honce k k'); [exact Hk' | |]; congruence. }
    rewrite Hnone. specialize (Hshort k). rewrite Hfk in Hshort. simpl in *. lia.
Qed.

Lemma flat_map_cons_length {A B C : Type} (f : A -> B -> list C) (b : B)
  (bs : list B) (ks : list A) :
  List.length (flat_map (fun k => flat_map (f k) (b :: bs)) ks)
  = List.length (flat_map (fun k => f k b) ks)
    + List.length (flat_map (fun k => flat_map (f k) bs) ks).
Proof.
  induction ks as [|k ks IH]; simpl in *; [reflexivity|].
  rewrite !length_app. lia.
Qed.

Lemma grouped_length (forbidden : list string) (my_choices : ChoicesMade.t)
  (n : nat) (criteria : list Chooseable) :
  List.length (grouped forbidden my_choices n criteria) <= List.length criteria.
Proof.
  unfold grouped. induction criteria as [|c cs IH].
  - change (List.length (grouped forbidden my_choices n []) <= 0).
    now rewrite grouped_nil.
  - rewrite (flat_map_cons_length (after_removals forbidden my_choices)).
    pose proof (flat_map_once (fun k => after_removals forbidden my_choices k c)
                  (seq 0 n)
                  (fun k => after_removals_short forbidden my_choices k c)
                  (fun k1 k2 => after_removals_once forbidden my_choices k1 k2 c)
                  (seq_NoDup n 0)).
    simpl. lia.
Qed.

Lemma is_forbidden_false_iff (forbidden : list string) (my_choices : ChoicesMade.t)
  (k : Criterion) (o : Option) :
  is_forbidden forbidden my_choices k o = false
  <-> ~ In (ChoicesMade.json (ChoicesMade.add_criterion_option my_choices k o)) forbidden.
Proof.
  split; [|apply is_forbidden_false].
  intros Hf Hin. apply (is_forbidden_true forbidden my_choices) in Hin. congruence.
Qed.

(** X1: the filter only takes options away.  Every pair of its output
    is a pair of the chooseable criteria reduced to the options whose
    combination is not forbidden, so no forbidden option and no option
    or criterion of its own making is in the output, and the output has
    no more pairs than the chooseable criteria. *)
Theorem visible_criteria_only_filters (db : Database) (self : AugmentedDataSource)
  (forbidden : list string) (my_choices : ChoicesMade.t) :
  forbidden_choices_json db self = inr forbidden ->
  _choices_made self = Some my_choices ->
  exists clean,
    visible_criteria db self = inr clean
    /\ List.length clean <= List.length (chooseable_criteria self)
    /\ Forall
         (fun kept =>
            Exists (fun c => kept = filtered forbidden my_choices c)
                   (chooseable_criteria self)
            /\ Forall
                 (fun o =>
                    ~ In (ChoicesMade.json
                            (ChoicesMade.add_criterion_option my_choices
                               (criterion kept) o))
                         forbidden)
                 (options kept))
         clean.
Proof.
  intros Hf Hsel. eexists.
  split; [exact (visible_criteria_grouped db self forbidden my_choices Hf Hsel)|].
  split; [apply grouped_length|].
  apply Forall_forall. intros kept Hkept. unfold grouped in Hkept.
  apply in_flat_map in Hkept as [k [_ Hkept]].
  apply in_flat_map in Hkept as [c [Hc Hkept]].
  apply after_removals_filtered in Hkept. subst kept. split.
  - apply Exists_exists. now exists c.
  - apply Forall_forall. intros o Ho. unfold filtered, visible_options in *.
    cbn [options criterion] in *. apply filter_In in Ho as [_ Ho].
    apply is_forbidden_false_iff. now destruct (is_forbidden _ _ _ o).
Qed.

(** X2: a pair without options is never filtered away: the inner loop
    has nothing to test, and the pair is in the output as it is. *)
Theorem visible_criteria_keeps_empty (db : Database) (self : AugmentedDataSource)
  (forbidden : list string) (my_choices : ChoicesMade.t) (chooseable : Chooseable) :
  forbidden_choices_json db self = inr forbidden ->
  _choices_made self = Some my_choices ->
  In chooseable (chooseable_criteria self) ->
  options chooseable = [] ->
  exists clean, visible_criteria db self = inr clean /\ In chooseable clean.
Proof.
  intros Hf Hsel Hc Hempty. eexists.
  split; [exact (visible_criteria_grouped db self forbidden my_choices Hf Hsel)|].
  rewrite grouped_succ. apply in_or_app. left.
  apply in_flat_map. exists chooseable. split; [exact Hc|].
  cbn [after_removals]. unfold accepts, first_forbidden, iter_options.
  rewrite Hempty. now left.
Qed.



(** X4: only the specifications of this augmented source that have
    [hide_from_layer] set can hide anything.  When no colour and no
    percentile specification is of that kind, the filter returns the
    chooseable criteria as they are. *)
Theorem visible_criteria_nothing_hidden (db : Database) (self : AugmentedDataSource)
  (my_choices : ChoicesMade.t) :
  _choices_made self = Some my_choices ->
  Forall (fun c => cf_hides self c = false) (ColorFromLatestValue_objects db) ->
  Forall (fun p => pl_hides self p = false) (PercentileLayer_objects db) ->
  forbidden_choices_json db self = inr []
  /\ visible_criteria db self = inr (chooseable_criteria self).
Proof.
  intros Hsel Hc Hp.
  assert (Hf : forbidden_choices_json db self = inr []).
  { unfold forbidden_choices_json.
    change (fun c => Nat.eqb (cf_augmented_source c) (config_object self)
                     && cf_hide_from_layer c) with (cf_hides self).
    change (fun p => Nat.eqb (pl_augmented_source p) (config_object self)
                     && pl_hide_from_layer p) with (pl_hides self).
    rewrite (filter_none (cf_hides self)), (filter_none (pl_hides self));
      [reflexivity | |]; now apply Forall_forall. }
  split; [exact Hf|].
  rewrite (visible_criteria_grouped db self [] my_choices Hf Hsel).
  f_equal. apply grouped_unchanged. reflexivity.
Qed.

(** * More about dictionaries *)

Lemma of_pairs_last {V : Type} (before after : list (string * V)) (k : string) (v : V) :
  ~ In k (map fst after) ->
  Dict.get (Dict.of_pairs (before ++ (k, v) :: after)) k = Some v.
Proof.
  intros Hn. unfold Dict.of_pairs. rewrite fold_left_app. cbn [fold_left fst snd].
  rewrite (proj1 (dict_fold_get after _ k) Hn), dict_get_set.
  now rewrite String.eqb_refl.
Qed.

Lemma fold_set_keys {V : Type} (pairs : list (string * V)) (d : Dict.t V) :
  (NoDup (Dict.keys d) ->
   NoDup (Dict.keys (fold_left (fun d kv => Dict.set d (fst kv) (snd kv)) pairs d)))
  /\ (forall k,
        In k (Dict.keys (fold_left (fun d kv => Dict.set d (fst kv) (snd kv)) pairs d))
        <-> In k (Dict.keys d) \/ In k (map fst pairs)).
Proof.
  revert d. induction pairs as [|[k' v'] pairs IH]; intros d; cbn [fold_left map fst snd].
  - split; [auto | intros k; simpl; tauto].
  - destruct (IH (Dict.set d k' v')) as [IH1 IH2].
    assert (Hin : forall k, In k (Dict.keys (Dict.set d k' v'))
                            <-> In k (Dict.keys d) \/ k' = k).
    { intros k. rewrite set_keys.
      destruct (existsb (String.eqb k') (Dict.keys d)) eqn:He.
      - apply existsb_exists in He as [x [Hx He]]. apply String.eqb_eq in He. subst x.
        split; [tauto | intros [H|<-]; assumption].
      - rewrite in_app_iff. simpl. tauto. }
    split.
    + intros Hd. apply IH1. rewrite set_keys.
      destruct (existsb (String.eqb k') (Dict.keys d)) eqn:He; [exact Hd|].
      apply NoDup_app; [exact Hd | repeat constructor; intros [] |].
      intros x Hx [<-|[]].
      assert (Ht : existsb (String.eqb k') (Dict.keys d) = true)
        by (apply existsb_exists; exists k'; split; [exact Hx | apply String.eqb_refl]).
      congruence.
    + intros k. rewrite IH2, Hin. simpl. tauto.
Qed.

(** * More about [locations] *)

Lemma colored_place (cached_values : Dict.t value) (colormap : ColorMap)
  (location : Location) :
  identifier (colored cached_values colormap location) = identifier location
  /\ latitude (colored cached_values colormap location) = latitude location
  /\ longitude (colored cached_values colormap location) = longitude location
  /\ color (colored cached_values colormap location) <> None.
Proof. unfold colored. cbn. repeat split. discriminate. Qed.

(** X5: [locations] neither adds, drops nor moves a location: what it
    returns are the locations of the wrapped source, in their order,
    with their identifiers, latitudes and longitudes. *)
Theorem locations_keep_places (db : Database) (self : AugmentedDataSource)
  (bare : bool) (colored_locations : list Location) :
  locations db self bare = inr colored_locations ->
  map identifier colored_locations
  = map identifier (ds_locations (original_datasource self) bare)
  /\ map latitude colored_locations
     = map latitude (ds_locations (original_datasource self) bare)
  /\ map longitude colored_locations
     = map longitude (ds_locations (original_datasource self) bare).
Proof.
  unfold locations. destruct bare.
  - intros H. injection H as <-. auto.
  - destruct (_colorfrom db self) as [e|[colorfrom|]]; cbn [bind];
      [discriminate | | intros H; injection H as <-; auto].
    intros H. injection H as <-. rewrite !map_map.
    repeat split; apply map_ext; intros l; apply colored_place.
Qed.

(** X6: [locations] fails in one case only: a call that is not bare,
    when two or more colour specifications colour the layer; the
    exception is then the one of a [get] that finds several objects. *)
Theorem locations_fails_iff (db : Database) (self : AugmentedDataSource)
  (bare : bool) (e : exn) :
  locations db self bare = inl e
  <-> bare = false
      /\ e = MultipleObjectsReturned
      /\ 2 <= List.length (colorfroms_of db self).
Proof.
  unfold locations, _colorfrom, colorfroms_of. destruct bare.
  - split; [discriminate | intros [H _]; discriminate].
  - destruct (filter _ (ColorFromLatestValue_objects db)) as [|c [|c' cs]];
      cbn [bind ret raise List.length].
    + split; [discriminate | intros [_ [_ H]]; lia].
    + split; [discriminate | intros [_ [_ H]]; lia].
    + split.
      * intros H. injection H as <-. repeat split. lia.
      * intros [_ [-> _]]. reflexivity.
Qed.

(** X7: when the cache holds several values for one location in the
    layer the colours come from, the last one read decides the colour
    of the location. *)
Theorem locations_last_cached_value (db : Database) (self : AugmentedDataSource)
  (colorfrom : ColorFromLatestValue) (layer : DatasourceLayer)
  (before after : list DatasourceCache) (cached_value : DatasourceCache)
  (location : Location) :
  _colorfrom db self = inr (Some colorfrom) ->
  layer_to_get_color_from colorfrom = Some layer ->
  cache_rows db layer = before ++ cached_value :: after ->
  Forall (fun later => locationid later <> locationid cached_value) after ->
  In location (ds_locations (original_datasource self) false) ->
  identifier location = locationid cached_value ->
  exists colored_locations,
    locations db self false = inr colored_locations
    /\ In {| identifier := identifier location;
             latitude := latitude location;
             longitude := longitude location;
             color := Some (strip_hash (color_for (colormap colorfrom)
                                                  (dc_value cached_value))) |}
          colored_locations.
Proof.
  intros Hc Hlayer Hrows Hafter Hin Hid.
  unfold locations. rewrite Hc. cbn [bind]. eexists. split; [reflexivity|].
  apply in_map_iff. exists location. split; [|exact Hin].
  unfold colored. f_equal.
  unfold cached_values_for. rewrite Hlayer.
  change (filter _ (DatasourceCache_objects db)) with (cache_rows db layer).
  rewrite Hrows, map_app. cbn [map]. rewrite Hid, of_pairs_last; [reflexivity|].
  rewrite map_map. cbn [fst]. intros H. apply in_map_iff in H as [later [Hl Hlater]].
  rewrite Forall_forall in Hafter. exact (Hafter later Hlater Hl).
Qed.

(** * [location_annotations] *)


(** * More about [timeseries] *)

(** X9: an extra graph line that adds to another layer changes nothing
    in the series of this layer, wherever it stands among the lines and
    whatever the other tables hold. *)
Theorem timeseries_ignores_other_layers (db db' : Database)
  (self : AugmentedDataSource) (line : ExtraGraphLine)
  (before after : list ExtraGraphLine)
  (location_id : string) (start_datetime end_datetime : option datetime) :
  ExtraGraphLine_objects db = before ++ after ->
  ExtraGraphLine_objects db' = before ++ line :: after ->
  layer_eqb (layer_to_add_line_to line) (datasource_layer self) = false ->
  timeseries db' self location_id start_datetime end_datetime
  = timeseries db self location_id start_datetime end_datetime.
Proof.
  intros Hdb Hdb' Hother. unfold timeseries, lines_added_to.
  rewrite Hdb, Hdb', !filter_app. cbn [filter]. now rewrite Hother.
Qed.

(** * More about [fill_mapping_with_closest_locations] *)





(** X14: the dictionaries of locations that the mapping is built from
    hold each identifier once, hold exactly the identifiers of the
    locations, and give an identifier that several locations share the
    place of the last of them. *)
Theorem location_dict_identifiers (locations : list Location) :
  NoDup (Dict.keys (location_dict locations))
  /\ (forall i, In i (Dict.keys (location_dict locations))
                <-> In i (map identifier locations))
  /\ (forall before location after,
        locations = before ++ location :: after ->
        Forall (fun later => identifier later <> identifier location) after ->
        Dict.get (location_dict locations) (identifier location)
        = Some (wgs84_to_rd (latitude location) (longitude location))).
Proof.
  unfold location_dict, Dict.of_pairs.
  destruct (fold_set_keys
              (map (fun l => (identifier l, wgs84_to_rd (latitude l) (longitude l)))
                   locations) []) as [Hd Hk].
  split; [apply Hd; constructor|]. split.
  - intros i. rewrite Hk, map_map. cbn [fst]. simpl. tauto.
  - intros before location after -> Hafter. rewrite map_app. cbn [map].
    apply (of_pairs_last
             (map (fun l => (identifier l, wgs84_to_rd (latitude l) (longitude l))) before)).
    rewrite map_map. cbn [fst]. intros H. apply in_map_iff in H as [later [Hl Hlater]].
    rewrite Forall_forall in Hafter. exact (Hafter later Hlater Hl).
Qed.

(** * The identifier of an augmented source *)

(** Decimal digits followed by an underscore can be read back. *)
Lemma digits_then_underscore (d1 d2 : uint) (rest1 rest2 : string) :
  (NilEmpty.string_of_uint d1 ++ String "_" rest1
   = NilEmpty.string_of_uint d2 ++ String "_" rest2)%string ->
  d1 = d2 /\ rest1 = rest2.
Proof.
  revert d2. induction d1 as [|d1 IH|d1 IH|d1 IH|d1 IH|d1 IH|d1 IH|d1 IH|d1 IH|d1 IH|d1 IH];
    intros [|d2|d2|d2|d2|d2|d2|d2|d2|d2|d2]; cbn [NilEmpty.string_of_uint append];
    intros H; try discriminate; injection H as H;
    try (apply IH in H as [-> ->]); auto.
Qed.

(** X12: the identifier of an augmented source tells its configuration
    apart: two augmented sources have the same identifier exactly when
    their configuration objects have the same id and the same name. *)
Theorem augmented_identifier_inj (self self' : AugmentedDataSource) :
  augmented_identifier self = augmented_identifier self'
  <-> config_object self = config_object self'
      /\ config_name self = config_name self'.
Proof.
  unfold augmented_identifier, format_int. split.
  - intros H. apply append_inv_head in H.
    change ("_" ++ config_name self)%string with (String "_" (config_name self)) in H.
    change ("_" ++ config_name self')%string with (String "_" (config_name self')) in H.
    apply digits_then_underscore in H as [Hid Hname].
    split; [now apply Unsigned.to_uint_inj | exact Hname].
  - intros [-> ->]. reflexivity.
Qed.

(** * [has_percentiles] and [percentiles] *)



(** * Filtering twice *)

Lemma grouped_clean (forbidden : list string) (my_choices : ChoicesMade.t)
  (n : nat) (criteria : list Chooseable) (kept : Chooseable) (o : Option) :
  In kept (grouped forbidden my_choices n criteria) ->
  In o (options kept) ->
  is_forbidden forbidden my_choices (criterion kept) o = false.
Proof.
  unfold grouped. intros Hkept Ho.
  apply in_flat_map in Hkept as [k [_ Hkept]].
  apply in_flat_map in Hkept as [c [_ Hkept]].
  apply after_removals_filtered in Hkept. subst kept.
  unfold filtered, visible_options in *. cbn [options criterion] in *.
  apply filter_In in Ho as [_ Ho]. now destruct (is_forbidden _ _ _ o).
Qed.

(** X15: the filter is stable: run on its own output, with the same
    selection and the same hidden layers, it returns that output
    unchanged. *)
Theorem visible_criteria_twice (db : Database) (self self' : AugmentedDataSource)
  (forbidden : list string) (my_choices : ChoicesMade.t) (clean : list Chooseable) :
  forbidden_choices_json db self = inr forbidden ->
  _choices_made self = Some my_choices ->
  visible_criteria db self = inr clean ->
  forbidden_choices_json db self' = inr forbidden ->
  _choices_made self' = Some my_choices ->
  chooseable_criteria self' = clean ->
  visible_criteria db self' = inr clean.
Proof.
  intros Hf Hsel Hclean Hf' Hsel' Hcrit.
  rewrite (visible_criteria_grouped db self forbidden my_choices Hf Hsel) in Hclean.
  injection Hclean as Hclean.
  rewrite (visible_criteria_grouped db self' forbidden my_choices Hf' Hsel'), Hcrit.
  f_equal. apply grouped_unchanged. intros c o Hc Ho.
  rewrite <- Hclean in Hc. exact (grouped_clean _ _ _ _ c o Hc Ho).
Qed.

End Augmented.

(** * A configuration to run the definitions on

    A source with the criteria region and parameter, selected by a
    caller that has chosen its source, and the augmented sources built
    over it. *)

Module Example.

Definition option_of (i : string) : Option :=
  {| option_identifier := i; option_description := i |}.

Definition north : Option := option_of "north".
Definition south : Option := option_of "south".
Definition east : Option := option_of "east".
Definition level : Option := option_of "level".

Definition region : Criterion :=
  {| criterion_identifier := "region"; criterion_description := "Region" |}.
Definition parameter : Criterion :=
  {| criterion_identifier := "parameter"; criterion_description := "Parameter" |}.

Definition my_choices : ChoicesMade.t :=
  ChoicesMade.add ChoicesMade.empty "source" "fews".

(** Time series as the calls that made them. *)
Inductive series : Type :=
| Fetched (layer : nat) (location_id : string)
| Added (timeseries extra : series).

Definition location (i : string) (lat lon : Z) : @Location Z :=
  {| identifier := i; latitude := lat; longitude := lon; color := None |}.

(** The wrapped source of layer [n]: its criteria are [criteria], its
    only location is [l]. *)
Definition source (n : nat) (criteria : list Chooseable) (l : @Location Z)
  : @DataSource Z Z series :=
  {| ds_chooseable_criteria := criteria;
     ds_locations := fun _ => [l];
     ds_timeseries := fun i _ _ => Fetched n i |}.

Definition layer (n : nat) (choices : ChoicesMade.t) : DatasourceLayer :=
  {| layer_id := n; choices_made := ChoicesMade.json choices |}.

Definition regions : list Chooseable :=
  [{| criterion := region; options := [north; south; east] |}].

Definition regions_and_parameter : list Chooseable :=
  [{| criterion := region; options := [north; south] |};
   {| criterion := parameter; options := [level] |}].

Definition T1 : @Location Z := location "T1" 52 5.
Definition S1 : @Location Z := location "S1" 52 5.

Definition augmented (criteria : list Chooseable) : @AugmentedDataSource Z Z series :=
  {| config_object := 1;
     original_datasource := source 1 criteria T1;
     _choices_made := Some my_choices;
     datasource_layer := layer 1 my_choices |}.

Definition colormap_of (f : Z -> string) : @ColorMap Z := {| color_for := f |}.

Definition blue_or_red : @ColorMap Z :=
  colormap_of (fun v => if (v <? 10)%Z then "#0000ff" else "ff0000").

(** A colour specification of augmented source 1 that colours layer 1
    from the layer [from], hidden or not. *)
Definition colorfrom (hide : bool) (from : option DatasourceLayer)
  : @ColorFromLatestValue Z :=
  {| cf_augmented_source := 1;
     cf_hide_from_layer := hide;
     layer_to_get_color_from := from;
     layer_to_add_color_to := layer 1 my_choices;
     colormap := blue_or_red |}.

Definition percentile_of (from : DatasourceLayer) : PercentileLayer :=
  {| pl_augmented_source := 1;
     pl_hide_from_layer := true;
     layer_to_get_percentile_from := from |}.

Definition hidden (k : Criterion) (o : Option) : DatasourceLayer :=
  layer 2 (ChoicesMade.add_criterion_option my_choices k o).

Definition database (colorfroms : list (@ColorFromLatestValue Z))
  (percentiles : list PercentileLayer) : @Database Z Z :=
  {| ColorFromLatestValue_objects := colorfroms;
     PercentileLayer_objects := percentiles;
     DatasourceCache_objects := [];
     ExtraGraphLine_objects := [] |}.

(** South is hidden as the layer the colours come from. *)
Definition db_south : @Database Z Z :=
  database [colorfrom true (Some (hidden region south))] [].

(** North, south and east are all hidden. *)
Definition db_all : @Database Z Z :=
  database [colorfrom true (Some (hidden region north))]
           [percentile_of (hidden region south); percentile_of (hidden region east)].

(** North is hidden. *)
Definition db_north : @Database Z Z :=
  database [colorfrom true (Some (hidden region north))] [].

(** The hidden layer was built with a region that the source does not
    offer. *)
Definition db_stale : @Database Z Z :=
  database [colorfrom true (Some (hidden region (option_of "west")))] [].

(** Layer 2 holds the latest value 3 for T1 and nothing for S1. *)
Definition db_colors (from : option DatasourceLayer) : @Database Z Z :=
  {| ColorFromLatestValue_objects := [colorfrom false from];
     PercentileLayer_objects := [];
     DatasourceCache_objects :=
       [{| dc_datasource_layer := hidden region south;
           locationid := "T1"; dc_value := 3%Z |}];
     ExtraGraphLine_objects := [] |}.

(** An extra graph line that adds the series of layer 2 to layer 1. *)
Definition extra_line (mapping : option IdentifierMapping) : @ExtraGraphLine Z :=
  {| egl_augmented_source := 1;
     layer_to_add_line_to := layer 1 my_choices;
     layer_to_get_line_from := hidden region south;
     identifier_mapping := mapping;
     max_distance_for_mapping := Some 100%Z |}.

Definition db_lines (mapping : option IdentifierMapping) : @Database Z Z :=
  {| ColorFromLatestValue_objects := [];
     PercentileLayer_objects := [];
     DatasourceCache_objects := [];
     ExtraGraphLine_objects := [extra_line mapping] |}.

Definition get_datasource_by_layer (l : DatasourceLayer) : @DataSource Z Z series :=
  if Nat.eqb (layer_id l) 1 then source 1 regions T1 else source 2 regions S1.

Definition map_identifier (line : @ExtraGraphLine Z) (i : string) : option string :=
  match identifier_mapping line with
  | Some mapping => resolve mapping i
  | None => Some i
  end.

(** Layer 2 has no data: its series are false. *)
Definition series_bool (s : series) : bool :=
  match s with
  | Fetched 2 _ => false
  | _ => true
  end.

Definition wgs84_to_rd (lat lon : Z) : Z * Z := ((lon * 1000)%Z, (lat * 1000)%Z).


End Example.

(** * The theorems at work *)

Import Example.

(** The source offers the regions north, south and east; with south
    hidden the filter returns north and east, with all three hidden it
    returns nothing. *)
Lemma visible_criteria_one_criterion_witness :
  visible_criteria db_south (augmented regions)
  = inr [{| criterion := region; options := [north; east] |}]
  /\ visible_criteria db_all (augmented regions) = inr [].
Proof.
  apply (visible_criteria_one_criterion db_south db_all (augmented regions)
           my_choices region north south east
           [choices_made (hidden region north);
            choices_made (hidden region south);
            choices_made (hidden region east)]);
    try reflexivity; try discriminate; simpl; auto.
Defined.

(** With north hidden, south is still offered under the region. *)
Lemma visible_criteria_keeps_allowed_witness :
  exists clean kept,
    visible_criteria db_north (augmented regions_and_parameter) = inr clean
    /\ In kept clean
    /\ criterion kept = region
    /\ In south (options kept)
    /\ kept = filtered [choices_made (hidden region north)] my_choices
                {| criterion := region; options := [north; south] |}.
Proof.
  apply (visible_criteria_keeps_allowed db_north (augmented regions_and_parameter)
           [choices_made (hidden region north)] my_choices
           {| criterion := region; options := [north; south] |} south);
    try reflexivity; simpl; auto.
  intros [H|[]]. vm_compute in H. discriminate.
Defined.

(** A layer hidden for the region west, which the source does not
    offer, changes nothing. *)
Lemma visible_criteria_ignores_stale_witness :
  visible_criteria db_stale (augmented regions) = inr regions
  /\ (forall (db' : @Database Z Z) (self' : @AugmentedDataSource Z Z series),
        visible_criteria db' self' = inl AttributeError
        \/ exists clean, visible_criteria db' self' = inr clean).
Proof.
  apply (visible_criteria_ignores_stale db_stale (augmented regions)
           [choices_made (hidden region (option_of "west"))] my_choices);
    try reflexivity.
  intros c o [<-|[]] [<-|[<-|[<-|[]]]] [H|[]]; vm_compute in H; discriminate.
Defined.

(** C5 does not hold of the code: with a hidden layer built for a region
    that the source does not offer, the filter returns the chooseable
    criteria, and no input makes it raise a configuration error. *)
Lemma visible_criteria_stale_counterexample :
  forbidden_choices_json db_stale (augmented regions)
  = inr [choices_made (hidden region (option_of "west"))]
  /\ visible_criteria db_stale (augmented regions) = inr regions
  /\ (forall (value angle datetime Timeseries dist : Type)
        (db : @Database value dist)
        (self : @AugmentedDataSource angle datetime Timeseries),
        visible_criteria db self <> inl ConfigurationError).
Proof.
  split; [reflexivity|]. split; [vm_compute; reflexivity|].
  intros value angle datetime Timeseries dist db self H.
  apply visible_criteria_error in H. discriminate.
Qed.

(** The source lists the region before the parameter; with north
    hidden the region is accepted in the second pass and comes back
    after the parameter. *)
Lemma visible_criteria_grouped_by_pass_witness :
  chooseable_criteria (augmented regions_and_parameter)
  = [{| criterion := region; options := [north; south] |};
     {| criterion := parameter; options := [level] |}]
  /\ visible_criteria db_north (augmented regions_and_parameter)
     = inr [{| criterion := parameter; options := [level] |};
            {| criterion := region; options := [south] |}].
Proof.
  split; [reflexivity|].
  refine (eq_trans
            (visible_criteria_grouped_by_pass db_north (augmented regions_and_parameter)
               [choices_made (hidden region north)] my_choices _ _ _) _).
  - reflexivity.
  - reflexivity.
  - repeat constructor; simpl; intuition discriminate.
  - vm_compute. reflexivity.
Defined.

(** The selection of the test, with its pairs in either order. *)
Lemma json_sorts_keys_witness :
  exists items,
    ChoicesMade.json [("test", "value"); ("a", "b")] = Json.json_object items
    /\ Permutation items [("test", "value"); ("a", "b")]
    /\ StronglySorted ChoicesMade.key_le items
    /\ ChoicesMade.json [("a", "b"); ("test", "value")]
       = ChoicesMade.json [("test", "value"); ("a", "b")]
    /\ ChoicesMade.json
         (ChoicesMade.add (ChoicesMade.add ChoicesMade.empty "test" "value") "a" "b")
       = ChoicesMade.test_json_sorts_keys_expected
    /\ ChoicesMade.json
         (ChoicesMade.add (ChoicesMade.add ChoicesMade.empty "a" "b") "test" "value")
       = ChoicesMade.test_json_sorts_keys_expected.
Proof.
  apply (json_sorts_keys [("test", "value"); ("a", "b")] [("a", "b"); ("test", "value")]).
  - repeat constructor; simpl; intuition discriminate.
  - apply perm_swap.
Defined.


(** The colour specification names no layer to take the colours
    from. *)
Lemma locations_gray_without_source_witness :
  cached_values_for (db_colors None) (colorfrom false None) = []
  /\ locations (db_colors None) (augmented regions) false
     = inr [{| identifier := "T1"; latitude := 52%Z; longitude := 5%Z;
               color := Some "888888" |}].
Proof.
  apply (locations_gray_without_source (db_colors None) (augmented regions)
           (colorfrom false None)); reflexivity.
Defined.

(** C8 does not hold of the code: the mapping has an identifier for T1,
    the series of the source layer is fetched for it and is false, and
    [add] is not called: the result is the series of the wrapped
    source, not that series with the other one added. *)
Lemma timeseries_false_series_counterexample :
  map_identifier (extra_line (Some [("T1", Some "S1")])) "T1" = Some "S1"
  /\ series_bool (Fetched 2 "S1") = false
  /\ timeseries get_datasource_by_layer map_identifier Added series_bool
       (db_lines (Some [("T1", Some "S1")])) (augmented regions) "T1"
       (@None Z) (@None Z)
     = Fetched 1 "T1"
  /\ Fetched 1 "T1" <> Added (Fetched 1 "T1") (Fetched 2 "S1").
Proof. repeat split; try reflexivity. discriminate. Qed.


(** * More configurations, and the other theorems at work *)

Module MoreExamples.

(** The region has one option and the parameter has none. *)
Definition region_and_empty_parameter : list Chooseable :=
  [{| criterion := region; options := [north] |};
   {| criterion := parameter; options := [] |}].

(** North is the colour source of this augmented source, but is not
    hidden; north is hidden by a percentile layer of another augmented
    source. *)
Definition db_not_hidden : @Database Z Z :=
  database [colorfrom false (Some (hidden region north))]
           [{| pl_augmented_source := 2;
               pl_hide_from_layer := true;
               layer_to_get_percentile_from := hidden region north |}].

Definition cached (i : string) (v : Z) : @DatasourceCache Z :=
  {| dc_datasource_layer := hidden region south; locationid := i; dc_value := v |}.

(** The cache of layer 2 holds 3 and then 30 for T1. *)
Definition db_two_values : @Database Z Z :=
  {| ColorFromLatestValue_objects := [colorfrom false (Some (hidden region south))];
     PercentileLayer_objects := [];
     DatasourceCache_objects := [cached "T1" 3; cached "S1" 7; cached "T1" 30];
     ExtraGraphLine_objects := [] |}.

(** A line that adds the series of layer 1 to layer 2. *)
Definition other_line : @ExtraGraphLine Z :=
  {| egl_augmented_source := 1;
     layer_to_add_line_to := hidden region south;
     layer_to_get_line_from := layer 1 my_choices;
     identifier_mapping := None;
     max_distance_for_mapping := None |}.

Definition db_two_lines : @Database Z Z :=
  {| ColorFromLatestValue_objects := [];
     PercentileLayer_objects := [];
     DatasourceCache_objects := [];
     ExtraGraphLine_objects := [other_line; extra_line None] |}.

End MoreExamples.

Import MoreExamples.

(** With north hidden, the two pairs come back reduced to south and to
    level. *)
Lemma visible_criteria_only_filters_witness :
  exists clean,
    visible_criteria db_north (augmented regions_and_parameter) = inr clean
    /\ List.length clean <= List.length (chooseable_criteria (augmented regions_and_parameter))
    /\ Forall
         (fun kept =>
            Exists (fun c => kept = filtered [choices_made (hidden region north)]
                                      my_choices c)
                   (chooseable_criteria (augmented regions_and_parameter))
            /\ Forall
                 (fun o =>
                    ~ In (ChoicesMade.json
                            (ChoicesMade.add_criterion_option my_choices
                               (criterion kept) o))
                         [choices_made (hidden region north)])
                 (options kept))
         clean.
Proof.
  apply (visible_criteria_only_filters db_north (augmented regions_and_parameter)
           [choices_made (hidden region north)] my_choices); reflexivity.
Defined.

(** The region loses its only option and is dropped; the parameter,
    which has no option, stays. *)
Lemma visible_criteria_keeps_empty_witness :
  exists clean,
    visible_criteria db_north (augmented region_and_empty_parameter) = inr clean
    /\ In {| criterion := parameter; options := [] |} clean.
Proof.
  apply (visible_criteria_keeps_empty db_north (augmented region_and_empty_parameter)
           [choices_made (hidden region north)] my_choices
           {| criterion := parameter; options := [] |});
    try reflexivity. simpl. auto.
Defined.

(** Neither the colour source that is not hidden nor the layer hidden
    by another augmented source hides north. *)
Lemma visible_criteria_nothing_hidden_witness :
  forbidden_choices_json db_not_hidden (augmented regions) = inr []
  /\ visible_criteria db_not_hidden (augmented regions) = inr regions.
Proof.
  apply (visible_criteria_nothing_hidden db_not_hidden (augmented regions) my_choices);
    [reflexivity | repeat constructor | repeat constructor].
Defined.

(** The coloured T1 is still T1, at its place. *)
Lemma locations_keep_places_witness :
  map identifier
      [{| identifier := "T1"; latitude := 52%Z; longitude := 5%Z;
          color := Some "0000ff" |}]
  = map identifier (ds_locations (original_datasource (augmented regions)) false)
  /\ map latitude
         [{| identifier := "T1"; latitude := 52%Z; longitude := 5%Z;
             color := Some "0000ff" |}]
     = map latitude (ds_locations (original_datasource (augmented regions)) false)
  /\ map longitude
         [{| identifier := "T1"; latitude := 52%Z; longitude := 5%Z;
             color := Some "0000ff" |}]
     = map longitude (ds_locations (original_datasource (augmented regions)) false).
Proof.
  apply (locations_keep_places (db_colors (Some (hidden region south)))
           (augmented regions) false). reflexivity.
Defined.

(** The value 30 comes after the value 3 and gives T1 its colour. *)
Lemma locations_last_cached_value_witness :
  exists colored_locations,
    locations db_two_values (augmented regions) false = inr colored_locations
    /\ In {| identifier := "T1"; latitude := 52%Z; longitude := 5%Z;
             color := Some "ff0000" |}
          colored_locations.
Proof.
  apply (locations_last_cached_value db_two_values (augmented regions)
           (colorfrom false (Some (hidden region south))) (hidden region south)
           [cached "T1" 3; cached "S1" 7] [] (cached "T1" 30) T1);
    try reflexivity; simpl; auto.
Defined.

(** The line that adds to layer 2 does not count for layer 1. *)
Lemma timeseries_ignores_other_layers_witness :
  timeseries get_datasource_by_layer map_identifier Added series_bool
    db_two_lines (augmented regions) "T1" (@None Z) (@None Z)
  = timeseries get_datasource_by_layer map_identifier Added series_bool
      (db_lines None) (augmented regions) "T1" (@None Z) (@None Z).
Proof.
  apply (timeseries_ignores_other_layers get_datasource_by_layer map_identifier
           Added series_bool (db_lines None) db_two_lines (augmented regions)
           other_line [] [extra_line None]); reflexivity.
Defined.

(** With north hidden, the output for the region and the parameter is
    the parameter and then the region reduced to south; filtered again,
    it stays so. *)
Lemma visible_criteria_twice_witness :
  visible_criteria db_north
    (augmented [{| criterion := parameter; options := [level] |};
                {| criterion := region; options := [south] |}])
  = inr [{| criterion := parameter; options := [level] |};
         {| criterion := region; options := [south] |}].
Proof.
  apply (visible_criteria_twice db_north (augmented regions_and_parameter)
           (augmented [{| criterion := parameter; options := [level] |};
                       {| criterion := region; options := [south] |}])
           [choices_made (hidden region north)] my_choices);
    reflexivity.
Defined.
